(** * KPR advisor (kpr2.py): the affordability engine and the text parsers

    A shallow embedding of the numeric core of [kpr2.py]: the two closed-form
    functions [monthly_payment] and [max_principal_from_dsr], the
    affordability snapshot computed from them (the specification's
    [evaluate]) and the two text parsers [parse_money] and [parse_decimal].
    Around this core, the display formatters, the two text-input widgets,
    the resolution of the API key and the conversation kept in the session
    are embedded too; what Streamlit and the model bring in (the text of a
    field, the chat input, the secrets, the reply) is an argument.

    Python exceptions are explicit: a computation returns [Ok v] or
    [Raise e], and [try ... except] is a function on such results.

    Numbers.  Python computes on binary64 floats.  The file has three
    readings of them, each where it can be exact about the code:
    - the engine over the rationals [Q], with exact arithmetic: the reading
      under which the formulas of the specification are algebraic
      identities, and the one the general theorems on the engine are about;
    - the engine over Rocq's primitive floats, in module [Binary64]: the
      IEEE 754 operations themselves, used to evaluate the code where
      rounding changes the branch it takes;
    - the parsers over [pyfloat], a rational, an infinity or a NaN, with the
      conversions [float(int)] and [float(str)] rounding to the nearest
      binary64 as CPython does. *)

From Stdlib Require Import ZArith QArith Qpower Qabs Qround Qreduction.
From Stdlib Require Qcanon.
From Stdlib Require Import Lqa Lia Bool List Ascii String.
From Stdlib Require Import Floats.
Import ListNotations.

Local Open Scope Q_scope.

(** ** Python run-time model: exceptions *)

Inductive exn : Set :=
| ZeroDivisionError
| ValueError
| OverflowError.

Inductive result (A : Type) : Type :=
| Ok (a : A)
| Raise (e : exn).

Arguments Ok {A} a.
Arguments Raise {A} e.

Definition bind {A B : Type} (m : result A) (k : A -> result B) : result B :=
  match m with
  | Ok a => k a
  | Raise e => Raise e
  end.

Notation "x <- m ;; k" := (bind m (fun x => k))
  (at level 61, m at next level, right associativity).

(** [try: body  except ZeroDivisionError: handler]. *)
Definition except_ZeroDivisionError {A : Type} (body handler : result A) : result A :=
  match body with
  | Raise ZeroDivisionError => handler
  | other => other
  end.

(** [try: body  except Exception: handler]; all three exceptions of the model
    are subclasses of [Exception]. *)
Definition except_Exception {A : Type} (body handler : result A) : result A :=
  match body with
  | Raise _ => handler
  | Ok a => Ok a
  end.

(** ** Exact arithmetic *)

Definition Qlt_bool (x y : Q) : bool := negb (Qle_bool y x).

(** [x / y] on floats: a zero divisor raises. *)
Definition truediv (x y : Q) : result Q :=
  if Qeq_bool y 0 then Raise ZeroDivisionError else Ok (x / y).

(** [x ** n] for a float [x] and an int [n]: zero to a negative power raises. *)
Definition pow (x : Q) (n : Z) : result Q :=
  if Qeq_bool x 0 && (n <? 0)%Z then Raise ZeroDivisionError else Ok (x ^ n).

(** The builtin [max(a, b)]: the first argument unless the second is greater. *)
Definition max (a b : Q) : Q := if Qlt_bool a b then b else a.

(** ** The engine (kpr2.py, lines 247-268) *)

(** The expression guarded by [try] at line 255. *)
Definition annuity_payment (principal r : Q) (n : Z) : result Q :=
  p <- pow (1 + r) (- n) ;;
  truediv (principal * r) (1 - p).

Definition monthly_payment (principal annual_rate_pct : Q) (years : Z) : result Q :=
  if Qle_bool principal 0 || (years <=? 0)%Z then Ok 0
  else
    let r := (annual_rate_pct / 100) / 12 in
    let n := (years * 12)%Z in
    if Qeq_bool r 0 then truediv principal (inject_Z n)
    else except_ZeroDivisionError (annuity_payment principal r n) (Ok 0).

(** The expression guarded by [try] at line 266. *)
Definition annuity_principal (capacity r : Q) (n : Z) : result Q :=
  p <- pow (1 + r) (- n) ;;
  truediv (capacity * (1 - p)) r.

Definition max_principal_from_dsr
    (net_income expenses dsr annual_rate_pct : Q) (years : Z) : result Q :=
  let capacity := max 0 ((net_income - expenses) * dsr) in
  let r := (annual_rate_pct / 100) / 12 in
  let n := (years * 12)%Z in
  if Qeq_bool r 0 then Ok (capacity * inject_Z n)
  else except_ZeroDivisionError (annuity_principal capacity r n) (Ok 0).

(** ** The affordability snapshot (lines 323-336 and 352-353)

    The script computes the snapshot inline; the specification calls it
    [evaluate] and groups its inputs and outputs in three records. *)

Record BorrowerProfile : Type := {
  net_monthly_income : Q;
  monthly_expenses : Q;
  property_price : Q;
  down_payment : Q;
  term_years : Z;
  annual_interest_rate_pct : Q
}.

Record PolicyThresholds : Type := {
  max_dsr : Q;
  max_ltv : Q
}.

Record AffordabilityResult : Type := {
  loan_need : Q;
  loan_to_value : Q;
  estimated_monthly_payment : Q;
  max_principal_under_dsr : Q;
  dsr_used : Q;
  dsr_compliant : bool;
  ltv_compliant : bool
}.

Definition evaluate (profile : BorrowerProfile) (thresholds : PolicyThresholds)
  : result AffordabilityResult :=
  let gaji_bersih := net_monthly_income profile in
  let pengeluaran := monthly_expenses profile in
  let harga := property_price profile in
  let dp := down_payment profile in
  let tenor := term_years profile in
  let bunga := annual_interest_rate_pct profile in
  let max_dsr := max_dsr thresholds in
  let max_ltv := max_ltv thresholds in
  let need_loan := max 0 (harga - dp) in
  ltv <- (if Qlt_bool 0 harga then truediv need_loan harga else Ok 0) ;;
  pay_est <- monthly_payment need_loan bunga tenor ;;
  max_principal_dsr <- max_principal_from_dsr gaji_bersih pengeluaran max_dsr bunga tenor ;;
  dsr_used <- (if Qlt_bool 0 (gaji_bersih - pengeluaran)
               then truediv pay_est (max 1 (gaji_bersih - pengeluaran))
               else Ok 0) ;;
  let dsr_flag :=
    if Qlt_bool 0 (gaji_bersih - pengeluaran) then Qle_bool dsr_used max_dsr else false in
  let ltv_flag := if Qlt_bool 0 harga then Qle_bool ltv max_ltv else true in
  Ok {| loan_need := need_loan;
        loan_to_value := ltv;
        estimated_monthly_payment := pay_est;
        max_principal_under_dsr := max_principal_dsr;
        dsr_used := dsr_used;
        dsr_compliant := dsr_flag;
        ltv_compliant := ltv_flag |}.


(** ** Auxiliary: the annuity factor

    [geom y k] is [y + y^2 + ... + y^k].  With [y = 1 / (1 + r)] it is the
    present value of [k] unit payments, the factor both closed-form
    functions share. *)


(** The monthly rate and the number of months, as the source derives them. *)
Definition monthly_rate (annual_rate_pct : Q) : Q := (annual_rate_pct / 100) / 12.

(** The capacity of [max_principal_from_dsr] (line 260). *)
Definition capacity (net_income expenses dsr : Q) : Q :=
  max 0 ((net_income - expenses) * dsr).


Definition example_profile : BorrowerProfile :=
  {| net_monthly_income := 8500000; monthly_expenses := 3000000;
     property_price := 750000000; down_payment := 150000000;
     term_years := 15; annual_interest_rate_pct := 105 # 10 |}.

Definition example_thresholds : PolicyThresholds :=
  {| max_dsr := 6 # 10; max_ltv := 95 # 100 |}.

(** ** The engine on binary64 floats

    The same two functions over Rocq's primitive floats, whose [+], [-], [*]
    and [/] are the IEEE 754 binary64 operations Python's [float] uses.
    Python's [x ** y] on floats (CPython's [float_pow]) decides a few
    arguments itself and leaves the others to the C library's [pow], which
    is not specified to the last bit: [pow] below returns [None] there, and
    so does every function that needs such a power. *)

Module Binary64.

Local Open Scope float_scope.

(** [float(n)] for an int [n], also the implicit conversion of an int
    operand: the nearest binary64, [OverflowError] beyond the range. *)
Definition float_of_int (n : Z) : result float :=
  let x := SF2Prim (binary_normalize prec emax n 0 false) in
  if is_infinity x then Raise OverflowError else Ok x.

Definition truediv (x y : float) : result float :=
  if y =? 0 then Raise ZeroDivisionError else Ok (x / y).

(** [iv ** iw], the cases CPython settles before it calls the C library:
    anything to the power 0 is 1; a NaN base is returned; 1 to any power is
    1; zero to a negative finite power raises. *)
Definition pow (iv iw : float) : option (result float) :=
  if iw =? 0 then Some (Ok 1)
  else if is_nan iv then Some (Ok iv)
  else if is_nan iw then Some (Ok (if iv =? 1 then 1 else iw))
  else if iv =? 1 then Some (Ok 1)
  else if (iv =? 0) && is_finite iw && (iw <? 0) then Some (Raise ZeroDivisionError)
  else None.

(** The builtin [max(a, b)]. *)
Definition max (a b : float) : float := if a <? b then b else a.

(** The expression guarded by [try] at line 255. *)
Definition annuity_payment (principal r : float) (n : Z) : option (result float) :=
  match float_of_int (- n) with
  | Raise e => Some (Raise e)
  | Ok w =>
      match pow (1 + r) w with
      | None => None
      | Some (Raise e) => Some (Raise e)
      | Some (Ok p) => Some (truediv (principal * r) (1 - p))
      end
  end.

Definition monthly_payment (principal annual_rate_pct : float) (years : Z)
  : option (result float) :=
  if (principal <=? 0) || (years <=? 0)%Z then Some (Ok 0)
  else
    let r := (annual_rate_pct / 100) / 12 in
    let n := (years * 12)%Z in
    if r =? 0 then Some (n' <- float_of_int n ;; truediv principal n')
    else
      match annuity_payment principal r n with
      | None => None
      | Some body => Some (except_ZeroDivisionError body (Ok 0))
      end.

(** The expression guarded by [try] at line 266. *)
Definition annuity_principal (capacity r : float) (n : Z) : option (result float) :=
  match float_of_int (- n) with
  | Raise e => Some (Raise e)
  | Ok w =>
      match pow (1 + r) w with
      | None => None
      | Some (Raise e) => Some (Raise e)
      | Some (Ok p) => Some (truediv (capacity * (1 - p)) r)
      end
  end.

Definition max_principal_from_dsr
    (net_income expenses dsr annual_rate_pct : float) (years : Z)
  : option (result float) :=
  let capacity := max 0 ((net_income - expenses) * dsr) in
  let r := (annual_rate_pct / 100) / 12 in
  let n := (years * 12)%Z in
  if r =? 0 then Some (n' <- float_of_int n ;; Ok (capacity * n'))
  else
    match annuity_principal capacity r n with
    | None => None
    | Some body => Some (except_ZeroDivisionError body (Ok 0))
    end.

End Binary64.

(** ** Python floats as values

    A Python [float] is a binary64: a finite number, an infinity or a NaN.
    The finite ones are rationals; the sign of a zero is not represented. *)

Inductive pyfloat : Type :=
| Fin (q : Q)
| Inf (negative : bool)
| NaN.

(** Rounding to the nearest integer, ties to even. *)
Definition round_half_even (x : Q) : Z :=
  let f := Qfloor x in
  match Qcompare (x - inject_Z f) (1 # 2) with
  | Lt => f
  | Gt => (f + 1)%Z
  | Eq => if Z.even f then f else (f + 1)%Z
  end.

(** [floor (log2 x)] for a positive [x]. *)
Definition floor_log2 (x : Q) : Z :=
  let e := (Z.log2 (Qnum x) - Z.log2 (Zpos (Qden x)))%Z in
  if Qle_bool (2 ^ e) x then e else (e - 1)%Z.

(** The binary64 nearest to a rational (ties to even): 53 significant bits,
    the least exponent [-1074] of the subnormals, infinity from [2^1024] on.
    This is the rounding of [float(int)] and of [float(str)]. *)
Definition binary64 (x : Q) : pyfloat :=
  if Qeq_bool x 0 then Fin 0
  else
    let a := Qabs x in
    let e := Z.max (floor_log2 a - 52) (- 1074) in
    let m := round_half_even (a / 2 ^ e) in
    let v := inject_Z m * 2 ^ e in
    if Qle_bool (2 ^ 1024) v then Inf (Qlt_bool x 0)
    else Fin (Qred (if Qlt_bool x 0 then - v else v)).

(** [float(n)] for an int [n]: the nearest binary64, [OverflowError] when
    that is beyond the range. *)
Definition float_of_int (n : Z) : result pyfloat :=
  match binary64 (inject_Z n) with
  | Inf _ => Raise OverflowError
  | v => Ok v
  end.

(** ** Python strings

    A [str] is a sequence of code points; the model has those below 256,
    Rocq's [ascii].  The character classes are CPython's on that range. *)

Definition str : Type := list ascii.

Definition code (c : ascii) : N := N_of_ascii c.

(** [c.isspace()]: the characters [str.strip()] removes. *)
Definition isspace (c : ascii) : bool :=
  let n := code c in
  ((9 <=? n) && (n <=? 13) || (28 <=? n) && (n <=? 32) || (n =? 133) || (n =? 160))%N.

(** The whitespace [int()] and [float()] skip around a literal: the ASCII
    whitespace, and the two other spaces below 256, which CPython turns into
    [' '] before it parses. *)
Definition isspace_literal (c : ascii) : bool :=
  let n := code c in
  ((9 <=? n) && (n <=? 13) || (n =? 32) || (n =? 133) || (n =? 160))%N.

(** [c.isdecimal()]: the decimal digits, below 256 those of ASCII. *)
Definition isdecimal (c : ascii) : bool :=
  let n := code c in ((48 <=? n) && (n <=? 57))%N.

Fixpoint lstrip_with (ws : ascii -> bool) (s : str) : str :=
  match s with
  | [] => []
  | c :: s' => if ws c then lstrip_with ws s' else s
  end.

Definition strip_with (ws : ascii -> bool) (s : str) : str :=
  rev (lstrip_with ws (rev (lstrip_with ws s))).

(** [s.strip()]. *)
Definition strip (s : str) : str := strip_with isspace s.

(** [s.replace(old, new)] for a one-character [old]. *)
Fixpoint replace (old : ascii) (new : str) (s : str) : str :=
  match s with
  | [] => []
  | c :: s' =>
      if Ascii.eqb c old then new ++ replace old new s' else c :: replace old new s'
  end.

(** [s.count(sub)] for a one-character [sub]. *)
Fixpoint count (sub : ascii) (s : str) : nat :=
  match s with
  | [] => O
  | c :: s' => if Ascii.eqb c sub then S (count sub s') else count sub s'
  end.

Definition str_eqb (s t : str) : bool :=
  if list_eq_dec ascii_dec s t then true else false.

(** ** [int(s)] and [float(s)] *)

Definition digit_value (c : ascii) : Z := Z.of_N (code c) - 48.

(** The number a run of decimal digits writes, most significant first. *)
Definition digits_value (s : str) : Z :=
  fold_left (fun acc c => 10 * acc + digit_value c)%Z s 0%Z.

(** A digit part: decimal digits, single underscores allowed between two
    digits.  Returns the digits. *)
Fixpoint digitpart (s : str) : option str :=
  match s with
  | [] => None
  | c :: s' =>
      if isdecimal c then
        match s' with
        | [] => Some [c]
        | c' :: s'' =>
            if Ascii.eqb c' "_" then option_map (cons c) (digitpart s'')
            else option_map (cons c) (digitpart s')
        end
      else None
  end.

(** An optional sign at the head of a literal: whether it is a minus, and
    the rest. *)
Definition split_sign (t : str) : bool * str :=
  match t with
  | c :: t' =>
      if Ascii.eqb c "-" then (true, t')
      else if Ascii.eqb c "+" then (false, t')
      else (false, t)
  | [] => (false, t)
  end.

(** CPython's default limit on the number of digits of an integer literal
    ([sys.int_info.default_max_str_digits]); an interpreter without the limit
    reads the longer literals too. *)
Definition int_max_str_digits : nat := 4300.

(** [int(s)], base 10: whitespace, an optional sign, a digit part of at
    most [int_max_str_digits] digits. *)
Definition py_int (s : str) : result Z :=
  let (negative, body) := split_sign (strip_with isspace_literal s) in
  match digitpart body with
  | Some ds =>
      if (int_max_str_digits <? List.length ds)%nat then Raise ValueError
      else Ok (if negative then - digits_value ds else digits_value ds)%Z
  | None => Raise ValueError
  end.

(** The underscores of a float literal: allowed only between two digits,
    and removed before the literal is read. *)
Fixpoint strip_underscores (prev_digit : bool) (s : str) : option str :=
  match s with
  | [] => Some []
  | c :: s' =>
      if Ascii.eqb c "_" then
        match s' with
        | c' :: _ => if prev_digit && isdecimal c' then strip_underscores false s' else None
        | [] => None
        end
      else option_map (cons c) (strip_underscores (isdecimal c) s')
  end.

(** The longest run of digits at the head of a string, and the rest. *)
Fixpoint span_digits (s : str) : str * str :=
  match s with
  | c :: s' =>
      if isdecimal c then let (ds, r) := span_digits s' in (c :: ds, r) else ([], s)
  | [] => ([], [])
  end.

Definition lower (c : ascii) : ascii :=
  let n := code c in
  if ((65 <=? n) && (n <=? 90))%N then ascii_of_N (n + 32) else c.

(** The exponent of a decimal literal: [e] or [E], an optional sign, digits. *)
Definition exponent (s : str) : option Z :=
  match s with
  | [] => Some 0%Z
  | c :: t =>
      if Ascii.eqb (lower c) "e" then
        let (negative, t') := split_sign t in
        match span_digits t' with
        | ((_ :: _) as ds, []) => Some (if negative then - digits_value ds else digits_value ds)%Z
        | _ => None
        end
      else None
  end.

(** A decimal literal without its sign: digits, an optional point and
    digits, at least one digit in all, an optional exponent.  Its exact
    value. *)
Definition decimal_literal (s : str) : option Q :=
  let (ip, s1) := span_digits s in
  let (fp, s2) :=
    match s1 with
    | c :: t => if Ascii.eqb c "." then span_digits t else ([], s1)
    | [] => ([], s1)
    end in
  match ip ++ fp with
  | [] => None
  | _ :: _ =>
      match exponent s2 with
      | Some e =>
          Some (inject_Z (digits_value (ip ++ fp)) * 10 ^ (e - Z.of_nat (List.length fp)))
      | None => None
      end
  end.

(** [inf], [infinity] and [nan], in any case. *)
Definition special_literal (negative : bool) (s : str) : option pyfloat :=
  let l := List.map lower s in
  if str_eqb l (list_ascii_of_string "inf") || str_eqb l (list_ascii_of_string "infinity")
  then Some (Inf negative)
  else if str_eqb l (list_ascii_of_string "nan") then Some NaN
  else None.

(** [float(s)]: whitespace, underscores, an optional sign, then a decimal
    literal, rounded to the nearest binary64, or an infinity or a NaN. *)
Definition py_float (s : str) : result pyfloat :=
  match strip_underscores false (strip_with isspace_literal s) with
  | None => Raise ValueError
  | Some t =>
      let (negative, body) := split_sign t in
      match decimal_literal body with
      | Some q => Ok (binary64 (if negative then - q else q))
      | None =>
          match special_literal negative body with
          | Some v => Ok v
          | None => Raise ValueError
          end
      end
  end.

(** ** The parsers (kpr2.py, lines 96-140)

    The argument is a [str], so the test [text is None] is false and
    [str(text)] is [text]. *)

Definition parse_money (text : string) : result pyfloat :=
  let s := strip (list_ascii_of_string text) in
  if str_eqb s [] then Ok (Fin 0)
  else
    let s := replace " " [] s in
    let s := replace "." [] (replace "," [] s) in
    if str_eqb s [] || str_eqb s ["-"%char] then Ok (Fin 0)
    else except_Exception (n <- py_int s ;; float_of_int n) (Ok (Fin 0)).

Definition parse_decimal (text : string) : result pyfloat :=
  let s := strip (list_ascii_of_string text) in
  if str_eqb s [] then Ok (Fin 0)
  else
    let s := replace " " [] s in
    let s :=
      if (count "," s =? 1)%nat && (count "." s =? 0)%nat
      then replace "," ["."%char] s
      else replace "," [] s in
    except_Exception (py_float s) (Ok (Fin 0)).

(** ** Auxiliary: what the parsers hand to [int()] and [float()] *)

(** The string [parse_money] converts: the text stripped, without spaces,
    commas and points (lines 104-111). *)
Definition money_text (text : string) : str :=
  replace "." [] (replace "," [] (replace " " [] (strip (list_ascii_of_string text)))).

(** The string [parse_decimal] converts: the text stripped, without spaces,
    its comma turned into a point or its commas removed (lines 127-136). *)
Definition decimal_text (text : string) : str :=
  let s := replace " " [] (strip (list_ascii_of_string text)) in
  if (count "," s =? 1)%nat && (count "." s =? 0)%nat
  then replace "," ["."%char] s
  else replace "," [] s.

(** The number that the digits [ip], a decimal point and the digits [fp]
    write. *)
Definition decimal_value (ip fp : str) : Q :=
  inject_Z (digits_value (ip ++ fp)) * 10 ^ (0 - Z.of_nat (List.length fp)).

Definition all_digits (s : str) : Prop := Forall (fun c => isdecimal c = true) s.

(** The characters [int()] accepts. *)
Definition int_char (c : ascii) : Prop :=
  isdecimal c = true \/ c = "_"%char \/ c = "+"%char \/ c = "-"%char
  \/ isspace_literal c = true.






(** ** Writing numbers: [str(int)], the [,] and [.0f] formats, [str(float)] *)

(** The character of a decimal digit. *)
Definition digit_char (d : Z) : ascii := ascii_of_N (Z.to_N (d + 48)).

Fixpoint decimal_digits (fuel : nat) (n : Z) : str :=
  match fuel with
  | O => []
  | S fuel' =>
      if (n <? 10)%Z then [digit_char n]
      else decimal_digits fuel' (n / 10) ++ [digit_char (n mod 10)]
  end.

(** [str(n)] for an int [n] that is not negative: its decimal digits. *)
Definition str_of_nonneg (n : Z) : str := decimal_digits (S (Z.to_nat (Z.log2 n))) n.

(** Commas between groups of three, on the digits in reverse. *)
Fixpoint group3 (rev_digits : str) : str :=
  match rev_digits with
  | a :: b :: c :: ((_ :: _) as rest) => a :: b :: c :: ","%char :: group3 rest
  | _ => rev_digits
  end.

(** The [,] of a format: groups of three digits from the right. *)
Definition thousands (digits : str) : str := rev (group3 (rev digits)).

(** [f"{n:,}"] for an int [n]. *)
Definition format_int_commas (n : Z) : str :=
  if (n <? 0)%Z then "-"%char :: thousands (str_of_nonneg (- n))
  else thousands (str_of_nonneg n).

(** [f"{v:,.0f}"] for a float [v]: rounded to a whole number, ties to even,
    the sign of a negative [v] kept. *)
Definition format_float_f0 (v : pyfloat) : str :=
  match v with
  | Fin q =>
      let digits := thousands (str_of_nonneg (round_half_even (Qabs q))) in
      if Qlt_bool q 0 then "-"%char :: digits else digits
  | Inf negative => list_ascii_of_string (if negative then "-inf" else "inf")
  | NaN => list_ascii_of_string "nan"
  end.

(** [f"{n:,.0f}"] for an int [n]: the int is converted to a float first. *)
Definition format_int_f0 (n : Z) : result str :=
  v <- float_of_int n ;; Ok (format_float_f0 v).

(** [round(x)] for a float [x]: the nearest int, ties to even. *)
Definition py_round (x : pyfloat) : result Z :=
  match x with
  | Fin q => Ok (round_half_even q)
  | Inf _ => Raise OverflowError
  | NaN => Raise ValueError
  end.

(** Whether two floats are the same value. *)
Definition pyfloat_same (x y : pyfloat) : bool :=
  match x, y with
  | Fin p, Fin q => Qeq_bool p q
  | Inf a, Inf b => Bool.eqb a b
  | NaN, NaN => true
  | _, _ => false
  end.

(** [floor (log10 x)] for a positive [x]. *)
Definition floor_log10 (x : Q) : Z :=
  let e := (floor_log2 x * 30103 / 100000)%Z in
  if Qle_bool (10 ^ (e + 1)) x then (e + 1)%Z
  else if Qle_bool (10 ^ e) x then e
  else (e - 1)%Z.

(** The [k]-digit number nearest to [x / 10^(E - k + 1)] that reads back as
    the float [x], if one of the two around it does. *)
Definition shortest_at (x : Q) (E k : Z) : option Z :=
  let s := 10 ^ (k - 1 - E) in
  let t := x * s in
  let lo := Qfloor t in
  let hi := (lo + 1)%Z in
  let ok (c : Z) := pyfloat_same (binary64 (inject_Z c / s)) (binary64 x) in
  match ok lo, ok hi with
  | true, true =>
      Some (match Qcompare (t - inject_Z lo) (1 # 2) with
            | Lt => lo
            | Gt => hi
            | Eq => if Z.even lo then lo else hi
            end)
  | true, false => Some lo
  | false, true => Some hi
  | false, false => None
  end.

(** The shortest digits that read back as [x]: tried from [k] digits on, 17
    digits always do. *)
Fixpoint shortest_from (x : Q) (E k : Z) (fuel : nat) : Z * Z :=
  match fuel with
  | O => (round_half_even (x * 10 ^ (k - 1 - E)), k)
  | S fuel' =>
      match shortest_at x E k with
      | Some d => (d, k)
      | None => shortest_from x E (k + 1) fuel'
      end
  end.

(** [s.rstrip(c)] for a one-character [c]. *)
Definition rstrip_char (c : ascii) (s : str) : str :=
  rev (lstrip_with (fun a => Ascii.eqb a c) (rev s)).

(** The digits of the shortest decimal that reads back as the positive [x],
    without trailing zeros, and the place of its decimal point. *)
Definition shortest_digits (x : Q) : str * Z :=
  let E := floor_log10 x in
  let (d, k) := shortest_from x E 1 16 in
  let all := str_of_nonneg d in
  (rstrip_char "0" all, (Z.of_nat (List.length all) + E - k + 1)%Z).

(** [repr] of a positive float from its digits: exponent notation outside
    [1e-4 <= x < 1e16], else a point inside or beside the digits. *)
Definition repr_digits (digits : str) (decpt : Z) : str :=
  if (decpt <=? -4)%Z || (16 <? decpt)%Z then
    let e := (decpt - 1)%Z in
    let mantissa :=
      match digits with
      | d :: ((_ :: _) as more) => d :: "."%char :: more
      | _ => digits
      end in
    let exponent_digits :=
      if (Z.abs e <? 10)%Z then "0"%char :: str_of_nonneg (Z.abs e)
      else str_of_nonneg (Z.abs e) in
    mantissa ++ "e"%char :: (if (e <? 0)%Z then "-"%char else "+"%char) :: exponent_digits
  else if (decpt <=? 0)%Z then
    "0"%char :: "."%char :: repeat "0"%char (Z.to_nat (- decpt)) ++ digits
  else if (Z.of_nat (List.length digits) <=? decpt)%Z then
    digits ++ repeat "0"%char (Z.to_nat decpt - List.length digits)
           ++ list_ascii_of_string ".0"
  else
    firstn (Z.to_nat decpt) digits ++ "."%char :: skipn (Z.to_nat decpt) digits.

(** [str(x)], [repr(x)] and [f"{x}"] for a float [x]. *)
Definition float_str (x : pyfloat) : str :=
  match x with
  | NaN => list_ascii_of_string "nan"
  | Inf negative => list_ascii_of_string (if negative then "-inf" else "inf")
  | Fin q =>
      if Qeq_bool q 0 then list_ascii_of_string "0.0"
      else
        let (digits, decpt) := shortest_digits (Qabs q) in
        if Qlt_bool q 0 then "-"%char :: repr_digits digits decpt
        else repr_digits digits decpt
  end.

(** ** The display formatters (kpr2.py, lines 53-93)

    Their argument is a [float].  A negative zero, whose [str] is ["-0.0"],
    is outside [pyfloat]: [Fin 0] stands for the positive one. *)

(** [c in s] for a one-character [c]. *)
Definition contains (c : ascii) (s : str) : bool := existsb (Ascii.eqb c) s.

(** [s.split(sep, 1)] for a one-character [sep] that occurs in [s]: what is
    before its first occurrence, and what is after. *)
Fixpoint split_first (sep : ascii) (s : str) : str * str :=
  match s with
  | [] => ([], [])
  | c :: s' =>
      if Ascii.eqb c sep then ([], s')
      else let (before, after) := split_first sep s' in (c :: before, after)
  end.

Definition rupiah (x : pyfloat) : result str :=
  except_Exception
    (n <- py_round x ;;
     s <- format_int_f0 n ;;
     Ok (list_ascii_of_string "Rp" ++ s))
    (Ok (list_ascii_of_string "Rp" ++ float_str x)).

Definition fmt_int (x : pyfloat) : result str :=
  except_Exception
    (n <- py_round x ;; format_int_f0 n)
    (Ok (float_str x)).

Definition fmt_decimal_trim (x : pyfloat) : result str :=
  except_Exception
    (let s := float_str x in
     let s := if contains "." s then rstrip_char "." (rstrip_char "0" s) else s in
     Ok s)
    (Ok (float_str x)).

Definition format_decimal_with_commas (x : pyfloat) : result str :=
  except_Exception
    (s <- fmt_decimal_trim x ;;
     if contains "." s then
       let (int_part, frac) := split_first "." s in
       n <- py_int int_part ;;
       Ok (format_int_commas n ++ "."%char :: frac)
     else
       n <- py_int s ;;
       Ok (format_int_commas n))
    (Ok (float_str x)).

(** ** The text-input widgets (kpr2.py, lines 143-174)

    [st.session_state] holds a float under the key of each widget; a missing
    key reads as the default of [get].  [st.text_input] is the user: it is
    given a label, the text to show and the key of the widget, and returns
    the text that is in the field. *)

Definition session_state : Type := string -> option pyfloat.

(** [session.get(key, default)]. *)
Definition session_get (session : session_state) (key : string) (default : pyfloat)
  : pyfloat :=
  match session key with
  | Some v => v
  | None => default
  end.

(** [session[key] = v]. *)
Definition session_set (session : session_state) (key : string) (v : pyfloat)
  : session_state :=
  fun k => if String.eqb k key then Some v else session k.

(** [x < y] on floats: false whenever one of them is a NaN. *)
Definition float_lt (x y : pyfloat) : bool :=
  match x, y with
  | Fin p, Fin q => Qlt_bool p q
  | Fin _, Inf negative => negb negative
  | Inf negative, Fin _ => negative
  | Inf a, Inf b => a && negb b
  | _, _ => false
  end.

(** [x <= y] on floats: false whenever one of them is a NaN. *)
Definition float_le (x y : pyfloat) : bool :=
  match x, y with
  | Fin p, Fin q => Qle_bool p q
  | Fin _, Inf negative => negb negative
  | Inf negative, Fin _ => negative
  | Inf a, Inf b => a || negb b
  | _, _ => false
  end.

Section Widgets.

Variable text_input : string -> str -> string -> string.

Definition money_text_input (label key : string) (session : session_state)
  : result (pyfloat * session_state) :=
  let current_val := session_get session key (Fin 0) in
  let text_key := (key ++ "__text")%string in
  default_str <- fmt_int current_val ;;
  let user_str := text_input label default_str text_key in
  parsed <- parse_money user_str ;;
  Ok (parsed, session_set session key parsed).

Definition percent_text_input (label key : string) (min_val max_val : pyfloat)
    (session : session_state) : result (pyfloat * session_state) :=
  let current_val := session_get session key (Fin 0) in
  let text_key := (key ++ "__text")%string in
  default_str <- format_decimal_with_commas current_val ;;
  let user_str := text_input label default_str text_key in
  parsed <- parse_decimal user_str ;;
  let parsed := if float_lt parsed min_val then min_val else parsed in
  let parsed := if float_lt max_val parsed then max_val else parsed in
  Ok (parsed, session_set session key parsed).

End Widgets.

(** ** The API key (kpr2.py, lines 31-45)

    [secrets] is what reading [st.secrets] gives: an exception, no entry
    [GOOGLE_API_KEY], or its value; [getenv] is the environment variable, if
    it is set. *)

(** The truth value of a [str]: it is not empty. *)
Definition truthy (s : str) : bool := negb (str_eqb s []).

Definition resolve_google_api_key (secrets : result (option str)) (getenv : option str)
  : str :=
  let found :=
    except_Exception
      (entry <- secrets ;;
       Ok (match entry with
           | Some value => if truthy value then Some value else None
           | None => None
           end))
      (Ok None) in
  match found with
  | Ok (Some value) => value
  | _ =>
      let env_key := strip (match getenv with Some value => value | None => [] end) in
      if truthy env_key then env_key else []
  end.

(** ** The conversation (kpr2.py, lines 270-276 and 396-436)

    [st.session_state.messages] is a list of dictionaries with a role and a
    content, or is missing. *)

Record message : Type := {
  role : string;
  content : str
}.

Definition ensure_messages_initialized (sys_prompt banker_context : str)
    (messages : option (list message)) : option (list message) :=
  match messages with
  | Some _ => messages
  | None =>
      let messages := [] in
      let messages :=
        if truthy (strip banker_context)
        then messages ++ [{| role := "system"; content := strip banker_context |}]
        else messages in
      let messages :=
        if truthy (strip sys_prompt)
        then messages ++ [{| role := "system"; content := strip sys_prompt |}]
        else messages in
      Some messages
  end.

(** The history as it is rendered (lines 399-403): the name given to
    [st.chat_message] and the text given to [st.markdown], in order. *)
Definition render_history (messages : list message) : list (string * str) :=
  flat_map
    (fun msg =>
       if String.eqb (role msg) "system" then []
       else [((if String.eqb (role msg) "user" then "user" else "assistant")%string,
              content msg)])
    messages.

(** The messages handed to the model (lines 418-425). *)
Inductive lc_message : Type :=
| SystemMessage (text : str)
| HumanMessage (text : str)
| AIMessage (text : str).

Definition lc_messages (messages : list message) : list lc_message :=
  List.map
    (fun m =>
       if String.eqb (role m) "system" then SystemMessage (content m)
       else if String.eqb (role m) "user" then HumanMessage (content m)
       else AIMessage (content m))
    messages.

(** One chat turn (lines 411-436).  [user_text] is what [st.chat_input]
    returns, [invoke] the call of the model, giving the content of its reply
    or an exception.  Returns the messages and the error shown, if any. *)
Definition chat_turn (invoke : list lc_message -> result str) (user_text : option str)
    (messages : list message) : list message * option exn :=
  match user_text with
  | Some text =>
      if truthy text then
        let messages := messages ++ [{| role := "user"; content := text |}] in
        match invoke (lc_messages messages) with
        | Ok ai_text =>
            (messages ++ [{| role := "assistant"; content := ai_text |}], None)
        | Raise e => (messages, Some e)
        end
      else (messages, None)
  | None => (messages, None)
  end.

(** One run of the chat stage of the script (lines 292-436) on the messages
    of the session: what the environment and the user give to this run, and
    the messages after it.  Without a key the script stops before it touches
    the messages; the reset button removes them and ends the run. *)
Record rerun : Type := {
  secrets : result (option str);
  getenv : option str;
  reset_btn : bool;
  sys_prompt : str;
  banker_context : str;
  user_text : option str;
  invoke : list lc_message -> result str
}.

Definition chat_stage (r : rerun) (messages : option (list message))
  : option (list message) :=
  if truthy (resolve_google_api_key (secrets r) (getenv r)) then
    if reset_btn r then None
    else
      match ensure_messages_initialized (sys_prompt r) (banker_context r) messages with
      | Some messages => Some (fst (chat_turn (invoke r) (user_text r) messages))
      | None => None
      end
  else messages.

(** The script run again and again, first run first. *)
Definition chat_session (runs : list rerun) (messages : option (list message))
  : option (list message) :=
  fold_left (fun messages r => chat_stage r messages) runs messages.

(** *** Shapes of a conversation, for the statements below *)

(** The system messages of a fresh conversation: the texts that are not
    blank, stripped, the banker context first. *)
Definition initial_messages (sys_prompt banker_context : str) : list message :=
  List.map (fun text => {| role := "system"; content := text |})
           (filter truthy [strip banker_context; strip sys_prompt]).

(** Chat turns: each a user message that is not empty, alone when the model
    failed, else followed by the reply of the assistant. *)
Inductive turns : list message -> Prop :=
| turns_nil : turns []
| turns_unanswered (earlier : list message) (text : str) :
    turns earlier -> text <> [] ->
    turns (earlier ++ [{| role := "user"; content := text |}])
| turns_answered (earlier : list message) (text ai_text : str) :
    turns earlier -> text <> [] ->
    turns (earlier ++ [{| role := "user"; content := text |};
                       {| role := "assistant"; content := ai_text |}]).

(** No usable secret: reading the secrets raises, or gives no entry or an
    empty one. *)
Definition no_secret (secrets : result (option str)) : Prop :=
  forall value, secrets = Ok (Some value) -> value = [].

(** ** Around the snapshot (kpr2.py, lines 322 and 354-360) *)

(** The name of the customer (line 322): the stored name stripped, or
    [Nasabah] when there is none. *)
Definition nama (stored : option str) : str :=
  let stripped := strip (match stored with Some value => value | None => [] end) in
  if truthy stripped then stripped else list_ascii_of_string "Nasabah".


(** * Properties *)

(** ** Booleans on [Q] and the two partial operations *)

Lemma Qlt_bool_iff (x y : Q) : Qlt_bool x y = true <-> x < y.
Proof.
  unfold Qlt_bool. rewrite negb_true_iff.
  destruct (Qle_bool y x) eqn:E.
  - apply Qle_bool_iff in E. split; [discriminate | intro H; exfalso; lra].
  - split; [intros _ | reflexivity].
    apply Qnot_le_lt. intro H. apply Qle_bool_iff in H. congruence.
Qed.

Lemma Qlt_bool_false (x y : Q) : Qlt_bool x y = false <-> y <= x.
Proof.
  unfold Qlt_bool. rewrite negb_false_iff. apply Qle_bool_iff.
Qed.

Lemma Qeq_bool_false (x y : Q) : Qeq_bool x y = false <-> ~ x == y.
Proof.
  split.
  - intros E H. apply Qeq_bool_iff in H. congruence.
  - intro H. destruct (Qeq_bool x y) eqn:E; [|reflexivity].
    apply Qeq_bool_iff in E. contradiction.
Qed.






Lemma max_spec (a b : Q) : (a < b /\ max a b = b) \/ (b <= a /\ max a b = a).
Proof.
  unfold max. destruct (Qlt_bool a b) eqn:E.
  - left. split; [now apply Qlt_bool_iff | reflexivity].
  - right. split; [now apply Qlt_bool_false | reflexivity].
Qed.


Lemma max_ge_r (a b : Q) : b <= max a b.
Proof. destruct (max_spec a b) as [[H ->] | [H ->]]; lra. Qed.

(** The guarded expressions raise nothing but [ZeroDivisionError]. *)





(** ** The annuity factor *)










(** ** Closed forms for non-negative rates *)








(** ** Where the divisor of the annuity formula vanishes *)









(** ** The snapshot, unfolded *)



(** ** Strings: strip, replace, count *)

Lemma str_eqb_true (s t : str) : str_eqb s t = true <-> s = t.
Proof. unfold str_eqb. destruct (list_eq_dec ascii_dec s t); split; congruence. Qed.

Lemma str_eqb_false (s t : str) : str_eqb s t = false <-> s <> t.
Proof. unfold str_eqb. destruct (list_eq_dec ascii_dec s t); split; congruence. Qed.


Lemma lstrip_with_keeps (ws : ascii -> bool) (s : str) (c : ascii) :
  In c s -> ws c = false -> In c (lstrip_with ws s).
Proof.
  intros Hin Hc. induction s as [|a s IH]; simpl in *; [tauto|].
  destruct (ws a) eqn:E.
  - destruct Hin as [-> | Hin]; [congruence | auto].
  - exact Hin.
Qed.


Lemma strip_with_keeps (ws : ascii -> bool) (s : str) (c : ascii) :
  In c s -> ws c = false -> In c (strip_with ws s).
Proof.
  intros Hin Hc. unfold strip_with.
  apply -> in_rev. apply lstrip_with_keeps; [|assumption].
  apply -> in_rev. now apply lstrip_with_keeps.
Qed.

Lemma lstrip_with_head (ws : ascii -> bool) (c : ascii) (s : str) :
  ws c = false -> lstrip_with ws (c :: s) = c :: s.
Proof. intro H. simpl. now rewrite H. Qed.

Lemma strip_with_id (ws : ascii -> bool) (s : str) :
  Forall (fun c => ws c = false) s -> strip_with ws s = s.
Proof.
  intro H. unfold strip_with.
  assert (L : forall t, Forall (fun c => ws c = false) t -> lstrip_with ws t = t).
  { intros [|a t] Ht; [reflexivity|]. inversion Ht; subst. now apply lstrip_with_head. }
  rewrite (L s H). rewrite L by now apply Forall_rev. apply rev_involutive.
Qed.

(** The first character that [strip] keeps is not a space. *)
Lemma lstrip_with_first (ws : ascii -> bool) (s : str) (c : ascii) (t : str) :
  lstrip_with ws s = c :: t -> ws c = false.
Proof.
  induction s as [|a s IH]; simpl; [discriminate|].
  destruct (ws a) eqn:E; [exact IH|]. intro H. now inversion H; subst.
Qed.



Lemma replace_absent (old : ascii) (new s : str) :
  ~ In old s -> replace old new s = s.
Proof.
  induction s as [|a s IH]; simpl; [reflexivity|]. intro H.
  destruct (Ascii.eqb a old) eqn:E.
  - apply Ascii.eqb_eq in E. subst a. tauto.
  - f_equal. apply IH. tauto.
Qed.

Lemma replace_nil_filter (old : ascii) (s : str) :
  replace old [] s = filter (fun c => negb (Ascii.eqb c old)) s.
Proof.
  induction s as [|a s IH]; simpl; [reflexivity|].
  destruct (Ascii.eqb a old); simpl; now rewrite IH.
Qed.

Lemma replace_one_map (old new : ascii) (s : str) :
  replace old [new] s = List.map (fun c => if Ascii.eqb c old then new else c) s.
Proof.
  induction s as [|a s IH]; simpl; [reflexivity|].
  destruct (Ascii.eqb a old); simpl; now rewrite IH.
Qed.

Lemma count_zero (c : ascii) (s : str) : count c s = O <-> ~ In c s.
Proof.
  induction s as [|a s IH]; simpl; [tauto|].
  destruct (Ascii.eqb a c) eqn:E.
  - apply Ascii.eqb_eq in E. subst a. split; [discriminate | tauto].
  - apply Ascii.eqb_neq in E. rewrite IH. tauto.
Qed.

Lemma count_app (c : ascii) (s t : str) : count c (s ++ t) = (count c s + count c t)%nat.
Proof.
  induction s as [|a s IH]; simpl; [reflexivity|].
  destruct (Ascii.eqb a c); simpl; now rewrite IH.
Qed.

Lemma count_rev (c : ascii) (s : str) : count c (rev s) = count c s.
Proof.
  induction s as [|a s IH]; simpl; [reflexivity|].
  rewrite count_app, IH. simpl. destruct (Ascii.eqb a c); lia.
Qed.

Lemma count_lstrip_with (ws : ascii -> bool) (c : ascii) (s : str) :
  ws c = false -> count c (lstrip_with ws s) = count c s.
Proof.
  intro Hc. induction s as [|a s IH]; simpl; [reflexivity|].
  destruct (ws a) eqn:E; [|reflexivity].
  destruct (Ascii.eqb a c) eqn:E'; [|exact IH].
  apply Ascii.eqb_eq in E'. congruence.
Qed.

Lemma count_strip_with (ws : ascii -> bool) (c : ascii) (s : str) :
  ws c = false -> count c (strip_with ws s) = count c s.
Proof.
  intro Hc. unfold strip_with.
  now rewrite count_rev, count_lstrip_with, count_rev, count_lstrip_with.
Qed.

Lemma count_replace_other (old : ascii) (new : str) (c : ascii) (s : str) :
  c <> old -> ~ In c new -> count c (replace old new s) = count c s.
Proof.
  intros Hc Hn. induction s as [|a s IH]; simpl; [reflexivity|].
  destruct (Ascii.eqb a old) eqn:E.
  - apply Ascii.eqb_eq in E. subst a.
    rewrite count_app, IH. apply count_zero in Hn. rewrite Hn.
    destruct (Ascii.eqb old c) eqn:E'; [|reflexivity].
    apply Ascii.eqb_eq in E'. congruence.
  - simpl. now rewrite IH.
Qed.

(** ** Character classes *)

Ltac all_chars :=
  let c := fresh "c" in
  intros c; destruct c as [[|] [|] [|] [|] [|] [|] [|] [|]]; vm_compute;
  repeat split; try congruence; try tauto.

Lemma digit_not_space : forall c, isdecimal c = true -> isspace c = false.
Proof. all_chars. Qed.

Lemma space_literal_is_space : forall c, isspace_literal c = true -> isspace c = true.
Proof. all_chars. Qed.

Lemma digit_not_underscore : forall c, isdecimal c = true -> Ascii.eqb c "_" = false.
Proof. all_chars. Qed.

Lemma digit_not_sign : forall c,
  isdecimal c = true -> Ascii.eqb c "-" = false /\ Ascii.eqb c "+" = false.
Proof. all_chars. Qed.

Lemma digit_not_point : forall c, isdecimal c = true -> Ascii.eqb c "." = false.
Proof. all_chars. Qed.

Lemma digit_value_range : forall c, isdecimal c = true -> (0 <= digit_value c <= 9)%Z.
Proof. all_chars. Qed.

Lemma lower_n_not_digit : forall c, lower c = "n"%char -> isdecimal c = false.
Proof. all_chars. Qed.

(** ** Digit parts *)

Lemma pair_induction (P : str -> Prop) :
  P [] -> (forall c, P [c]) ->
  (forall c c' s, P s -> P (c' :: s) -> P (c :: c' :: s)) ->
  forall s, P s.
Proof.
  intros H0 H1 H2 s.
  assert (H : P s /\ forall c, P (c :: s)).
  { induction s as [|a s [IH1 IH2]]; split; auto. }
  apply H.
Qed.

Lemma digitpart_first (c : ascii) (s ds : str) :
  digitpart (c :: s) = Some ds -> isdecimal c = true.
Proof. simpl. destruct (isdecimal c); [reflexivity | discriminate]. Qed.

Lemma digitpart_cons2 (a b : ascii) (s : str) :
  digitpart (a :: b :: s)
  = if isdecimal a
    then if Ascii.eqb b "_" then option_map (cons a) (digitpart s)
         else option_map (cons a) (digitpart (b :: s))
    else None.
Proof. reflexivity. Qed.

(** A digit part holds digits and underscores only. *)
Lemma digitpart_chars (s : str) :
  forall ds, digitpart s = Some ds ->
             forall c, In c s -> isdecimal c = true \/ c = "_"%char.
Proof.
  induction s as [| a | a b s IH1 IH2] using pair_induction; intros ds H c Hin.
  - destruct Hin.
  - destruct Hin as [<- | []]. left. eapply digitpart_first, H.
  - assert (Ha : isdecimal a = true) by (eapply digitpart_first, H).
    rewrite digitpart_cons2, Ha in H.
    destruct Hin as [<- | Hin]; [now left|].
    destruct (Ascii.eqb b "_") eqn:E.
    + apply Ascii.eqb_eq in E. subst b.
      destruct Hin as [<- | Hin]; [now right|].
      destruct (digitpart s) as [ds'|] eqn:D; [|discriminate H].
      eapply IH1; eauto.
    + destruct (digitpart (b :: s)) as [ds'|] eqn:D; [|discriminate H].
      eapply IH2; eauto.
Qed.

(** A non-empty run of digits is a digit part, and is what it holds. *)
Lemma digitpart_digits (s : str) :
  s <> [] -> Forall (fun c => isdecimal c = true) s -> digitpart s = Some s.
Proof.
  induction s as [| a | a b s IH1 IH2] using pair_induction; intros N F.
  - congruence.
  - inversion F; subst. simpl. now rewrite H1.
  - inversion F as [|? ? Ha F']; subst. inversion F' as [|? ? Hb F'']; subst.
    rewrite digitpart_cons2, Ha, (digit_not_underscore b Hb).
    rewrite IH2; [reflexivity | discriminate | assumption].
Qed.

(** ** [int(s)] *)


Lemma split_sign_unsigned (t : str) :
  match t with
  | c :: _ => Ascii.eqb c "-" = false /\ Ascii.eqb c "+" = false
  | [] => True
  end ->
  split_sign t = (false, t).
Proof.
  unfold split_sign. destruct t as [|c t']; [reflexivity|]. intros [-> ->]. reflexivity.
Qed.



Lemma py_int_Ok_chars (s : str) (z : Z) :
  py_int s = Ok z -> forall c, In c s -> int_char c.
Proof.
  unfold py_int, split_sign, int_char. set (t := strip_with isspace_literal s).
  intros H c Hin.
  destruct (isspace_literal c) eqn:W; [tauto|].
  assert (Hc : In c t) by now apply strip_with_keeps.
  clearbody t.
  assert (Body : forall body ds, digitpart body = Some ds -> In c body ->
                                 isdecimal c = true \/ c = "_"%char)
    by (intros body ds D I; eapply digitpart_chars; eauto).
  destruct t as [|a t']; [destruct Hc|].
  destruct (Ascii.eqb a "-") eqn:Em; [|destruct (Ascii.eqb a "+") eqn:Ep].
  - apply Ascii.eqb_eq in Em. subst a.
    destruct Hc as [<- | Hc]; [tauto|].
    destruct (digitpart t') eqn:D; [|discriminate].
    destruct (Body _ _ D Hc); tauto.
  - apply Ascii.eqb_eq in Ep. subst a.
    destruct Hc as [<- | Hc]; [tauto|].
    destruct (digitpart t') eqn:D; [|discriminate].
    destruct (Body _ _ D Hc); tauto.
  - destruct (digitpart (a :: t')) eqn:D; [|discriminate].
    destruct (Body _ _ D Hc); tauto.
Qed.

(** A minus sign before a run of digits. *)
Lemma py_int_negative (ds : str) :
  ds <> [] -> Forall (fun c => isdecimal c = true) ds ->
  (List.length ds <= int_max_str_digits)%nat ->
  py_int ("-"%char :: ds) = Ok (- digits_value ds)%Z.
Proof.
  intros N F L. unfold py_int, split_sign.
  rewrite strip_with_id.
  - cbv beta iota. change (Ascii.eqb "-" "-") with true. cbv beta iota.
    rewrite digitpart_digits by assumption.
    apply Nat.ltb_ge in L. now rewrite L.
  - constructor; [reflexivity|].
    eapply Forall_impl; [|exact F]. intros c Hc. cbv beta in Hc.
    pose proof (space_literal_is_space c) as S. pose proof (digit_not_space c Hc) as D.
    destruct (isspace_literal c); [|reflexivity]. rewrite S in D by reflexivity. discriminate.
Qed.

(** ** Rounding to binary64: integers below [2^53] are exact *)

Lemma round_half_even_int (x : Q) (n : Z) : x == inject_Z n -> round_half_even x = n.
Proof.
  intro E. unfold round_half_even.
  assert (F : Qfloor x = n) by (rewrite E; apply Qfloor_Z).
  rewrite F.
  assert (L : Qcompare (x - inject_Z n) (1 # 2) = Lt).
  { apply Qlt_alt. rewrite E. unfold Qminus. rewrite Qplus_opp_r. reflexivity. }
  now rewrite L.
Qed.

Lemma Qpower_2_nonneg (k : Z) : (0 <= k)%Z -> 2 ^ k == inject_Z (2 ^ k).
Proof. intro H. rewrite Zpower_Qpower by assumption. reflexivity. Qed.

Lemma floor_log2_int (a : Z) : (0 < a)%Z -> floor_log2 (inject_Z a) = Z.log2 a.
Proof.
  intro H. unfold floor_log2. cbn [Qnum Qden inject_Z].
  change (Z.log2 1) with 0%Z. rewrite Z.sub_0_r.
  assert (E : Qle_bool (2 ^ Z.log2 a) (inject_Z a) = true).
  { apply Qle_bool_iff. rewrite Qpower_2_nonneg by apply Z.log2_nonneg.
    rewrite <- Zle_Qle. apply Z.log2_spec. assumption. }
  change (a # 1) with (inject_Z a). now rewrite E.
Qed.

Lemma Qred_inject_Z (z : Z) : Qred (inject_Z z) = inject_Z z.
Proof. apply Qcanon.Qred_identity. simpl. apply Z.gcd_1_r. Qed.

Lemma binary64_small_int (z : Z) :
  (Z.abs z < 2 ^ 53)%Z -> binary64 (inject_Z z) = Fin (inject_Z z).
Proof.
  intro B. destruct (Z.eq_dec z 0) as [-> | N]; [reflexivity|].
  unfold binary64.
  assert (E0 : Qeq_bool (inject_Z z) 0 = false).
  { apply Qeq_bool_false. intro E. change 0 with (inject_Z 0) in E.
    rewrite inject_Z_injective in E. contradiction. }
  rewrite E0.
  change (Qabs (inject_Z z)) with (inject_Z (Z.abs z)).
  set (a := Z.abs z) in *.
  assert (Ha : (0 < a)%Z) by (subst a; lia).
  rewrite floor_log2_int by assumption.
  assert (HL : (0 <= Z.log2 a < 53)%Z).
  { split; [apply Z.log2_nonneg|]. now apply Z.log2_lt_pow2. }
  rewrite Z.max_l by lia.
  set (k := (52 - Z.log2 a)%Z).
  replace (Z.log2 a - 52)%Z with (- k)%Z by (subst k; lia).
  assert (Hk : (0 <= k)%Z) by (subst k; lia).
  assert (P2 : 2 ^ (- k) == / inject_Z (2 ^ k)).
  { rewrite Qpower_opp, Qpower_2_nonneg by assumption. reflexivity. }
  assert (NZ : ~ inject_Z (2 ^ k) == 0).
  { intro E. change 0 with (inject_Z 0) in E. rewrite inject_Z_injective in E.
    pose proof (Z.pow_pos_nonneg 2 k). lia. }
  assert (M : round_half_even (inject_Z a / 2 ^ (- k)) = (a * 2 ^ k)%Z).
  { apply round_half_even_int. rewrite P2, inject_Z_mult. field. assumption. }
  rewrite M.
  assert (V : inject_Z (a * 2 ^ k) * 2 ^ (- k) == inject_Z a).
  { rewrite P2, inject_Z_mult. field. assumption. }
  assert (R : Qle_bool (2 ^ 1024) (inject_Z (a * 2 ^ k) * 2 ^ (- k)) = false).
  { destruct (Qle_bool _ _) eqn:E; [|reflexivity].
    apply Qle_bool_iff in E. rewrite V in E.
    assert (C : inject_Z a < inject_Z (2 ^ 53)) by (rewrite <- Zlt_Qlt; assumption).
    assert (D : inject_Z (2 ^ 53) < 2 ^ 1024) by reflexivity.
    exfalso. apply (Qlt_irrefl (inject_Z a)).
    eapply Qlt_le_trans; [|exact E]. eapply Qlt_trans; eassumption. }
  rewrite R. f_equal.
  transitivity (Qred (inject_Z z)); [apply Qred_complete | apply Qred_inject_Z].
  destruct (Qlt_bool (inject_Z z) 0) eqn:S.
  - apply Qlt_bool_iff in S. change 0 with (inject_Z 0) in S. rewrite <- Zlt_Qlt in S.
    cbv iota. rewrite V. subst a. rewrite Z.abs_neq by lia. rewrite inject_Z_opp. ring.
  - apply Qlt_bool_false in S. change 0 with (inject_Z 0) in S. rewrite <- Zle_Qle in S.
    cbv iota. rewrite V. subst a. rewrite Z.abs_eq by lia. reflexivity.
Qed.

Lemma float_of_int_small (z : Z) :
  (Z.abs z < 2 ^ 53)%Z -> float_of_int z = Ok (Fin (inject_Z z)).
Proof. intro B. unfold float_of_int. now rewrite binary64_small_int. Qed.

(** ** [float(s)] *)


Lemma span_digits_app (ds r : str) :
  Forall (fun c => isdecimal c = true) ds ->
  match r with c :: _ => isdecimal c = false | [] => True end ->
  span_digits (ds ++ r) = (ds, r).
Proof.
  intros F R. induction F as [|a ds Ha F IH]; simpl.
  - destruct r as [|c r']; [reflexivity|]. simpl. now rewrite R.
  - now rewrite Ha, IH.
Qed.


Lemma strip_underscores_none (s : str) (b : bool) :
  ~ In "_"%char s -> strip_underscores b s = Some s.
Proof.
  revert b. induction s as [|a s IH]; intros b N; [reflexivity|].
  cbn [strip_underscores].
  destruct (Ascii.eqb a "_") eqn:E.
  - apply Ascii.eqb_eq in E. subst a. exfalso. apply N. now left.
  - rewrite IH; [reflexivity|]. intro H. apply N. now right.
Qed.








(** ** The parsers, unfolded *)

Lemma parse_money_unfold (text : string) :
  parse_money text
  = if str_eqb (strip (list_ascii_of_string text)) [] then Ok (Fin 0)
    else if str_eqb (money_text text) [] || str_eqb (money_text text) ["-"%char]
         then Ok (Fin 0)
         else except_Exception (n <- py_int (money_text text) ;; float_of_int n) (Ok (Fin 0)).
Proof. reflexivity. Qed.

Lemma parse_decimal_unfold (text : string) :
  parse_decimal text
  = if str_eqb (strip (list_ascii_of_string text)) [] then Ok (Fin 0)
    else except_Exception (py_float (decimal_text text)) (Ok (Fin 0)).
Proof. reflexivity. Qed.

Lemma py_float_nil : py_float [] = Raise ValueError.
Proof. reflexivity. Qed.

(** The early return on an empty string agrees with the fallback. *)
Lemma parse_decimal_fallback (text : string) :
  parse_decimal text = except_Exception (py_float (decimal_text text)) (Ok (Fin 0)).
Proof.
  rewrite parse_decimal_unfold.
  destruct (str_eqb (strip (list_ascii_of_string text)) []) eqn:E; [|reflexivity].
  apply str_eqb_true in E. unfold decimal_text. rewrite E. reflexivity.
Qed.

Lemma except_Exception_Ok {A : Type} (body : result A) (v0 : A) :
  exists v, except_Exception body (Ok v0) = Ok v.
Proof. destruct body; simpl; eauto. Qed.

Lemma except_Exception_Raise {A : Type} (body : result A) (e : exn) (v0 : A) :
  body = Raise e -> except_Exception body (Ok v0) = Ok v0.
Proof. intros ->. reflexivity. Qed.


Lemma parse_decimal_total (text : string) : exists v, parse_decimal text = Ok v.
Proof. rewrite parse_decimal_fallback. apply except_Exception_Ok. Qed.



(** What the cleaned strings keep of the text. *)


Lemma space_is_space : isspace " " = true.
Proof. reflexivity. Qed.







Lemma point_not_digit_not_n : isdecimal "." = false /\ lower "." <> "n"%char.
Proof. split; [reflexivity | discriminate]. Qed.



(** ** The parsers on digits and separators *)

Lemma separator_classes :
  isspace "," = false /\ isspace "." = false /\ isspace "-" = false
  /\ isdecimal "," = false /\ isdecimal "." = false /\ isdecimal "-" = false
  /\ isdecimal " " = false.
Proof. repeat split. Qed.

Lemma replace_separators_digits (s : str) :
  Forall (fun c => isdecimal c = true \/ c = ","%char \/ c = "."%char) s ->
  replace "." [] (replace "," [] s) = filter isdecimal s.
Proof.
  induction 1 as [|a s Ha F IH]; [reflexivity|].
  destruct Ha as [Ha | [-> | ->]].
  - cbn [replace filter].
    assert (Ec : Ascii.eqb a "," = false).
    { destruct (Ascii.eqb a ",") eqn:E; [|reflexivity].
      apply Ascii.eqb_eq in E. subst a. discriminate. }
    rewrite Ec. cbn [replace]. rewrite (digit_not_point a Ha), Ha, IH. reflexivity.
  - cbn [replace filter]. change (Ascii.eqb "," ",") with true. cbv iota.
    change (isdecimal ",") with false. cbv iota. exact IH.
  - cbn [replace filter]. change (Ascii.eqb "." ",") with false. cbv iota.
    cbn [replace]. change (Ascii.eqb "." ".") with true. cbv iota.
    change (isdecimal ".") with false. cbv iota. exact IH.
Qed.

Lemma separators_no_space (s : str) :
  Forall (fun c => isdecimal c = true \/ c = ","%char \/ c = "."%char) s ->
  Forall (fun c => isspace c = false) s.
Proof.
  intro F. eapply Forall_impl; [|exact F]. intros c [H | [-> | ->]].
  - now apply digit_not_space.
  - reflexivity.
  - reflexivity.
Qed.

Lemma no_space_absent (s : str) :
  Forall (fun c => isspace c = false) s -> ~ In " "%char s.
Proof.
  intros F H. rewrite Forall_forall in F. apply F in H.
  rewrite space_is_space in H. discriminate.
Qed.

Lemma filter_digits_nonempty (s : str) :
  Exists (fun c => isdecimal c = true) s -> filter isdecimal s <> [].
Proof.
  intros E H. apply Exists_exists in E. destruct E as (c & Hc & Hd).
  assert (I : In c (filter isdecimal s)) by (apply filter_In; auto).
  rewrite H in I. destruct I.
Qed.

Lemma filter_digits_all (s : str) : all_digits (filter isdecimal s).
Proof.
  unfold all_digits. apply Forall_forall. intros c H. apply filter_In in H. tauto.
Qed.

(** A minus sign before digits and separators: the text [int()] receives, and
    what the parser returns. *)
Lemma money_text_negative (d : string) :
  Forall (fun c => isdecimal c = true \/ c = ","%char \/ c = "."%char)
         (list_ascii_of_string d) ->
  strip (list_ascii_of_string (String "-" d)) = "-"%char :: list_ascii_of_string d
  /\ money_text (String "-" d) = "-"%char :: filter isdecimal (list_ascii_of_string d).
Proof.
  intro F. unfold money_text. cbn [list_ascii_of_string].
  set (ld := list_ascii_of_string d) in *.
  assert (NS : Forall (fun c => isspace c = false) ("-"%char :: ld)).
  { constructor; [reflexivity | now apply separators_no_space]. }
  assert (St : strip ("-"%char :: ld) = "-"%char :: ld) by now apply strip_with_id.
  split; [exact St|]. rewrite St.
  rewrite (replace_absent " ") by now apply no_space_absent.
  cbn [replace]. change (Ascii.eqb "-" ",") with false. cbv iota.
  cbn [replace]. change (Ascii.eqb "-" ".") with false. cbv iota.
  now rewrite replace_separators_digits.
Qed.

Lemma parse_money_negative_value (d : string) :
  Forall (fun c => isdecimal c = true \/ c = ","%char \/ c = "."%char)
         (list_ascii_of_string d) ->
  Exists (fun c => isdecimal c = true) (list_ascii_of_string d) ->
  (List.length (filter isdecimal (list_ascii_of_string d)) <= int_max_str_digits)%nat ->
  parse_money (String "-" d)
  = except_Exception
      (float_of_int (- digits_value (filter isdecimal (list_ascii_of_string d))))
      (Ok (Fin 0)).
Proof.
  intros F E L. destruct (money_text_negative d F) as [St Mt].
  rewrite parse_money_unfold, St, Mt.
  pose proof (filter_digits_nonempty _ E) as NE.
  assert (E1 : str_eqb ("-"%char :: list_ascii_of_string d) [] = false)
    by (apply str_eqb_false; discriminate).
  assert (E2 : str_eqb ("-"%char :: filter isdecimal (list_ascii_of_string d)) [] = false)
    by (apply str_eqb_false; discriminate).
  assert (E3 : str_eqb ("-"%char :: filter isdecimal (list_ascii_of_string d)) ["-"%char]
               = false).
  { apply str_eqb_false. intro H. inversion H. contradiction. }
  rewrite E1, E2, E3. cbn [orb].
  rewrite py_int_negative by (assumption || apply filter_digits_all).
  reflexivity.
Qed.

Lemma digits_value_nonneg_aux (s : str) :
  all_digits s -> forall acc, (0 <= acc)%Z ->
  (0 <= fold_left (fun a c => 10 * a + digit_value c) s acc)%Z.
Proof.
  induction 1 as [|a s Ha F IH]; intros acc Hacc; [exact Hacc|].
  cbn [fold_left]. apply IH. pose proof (digit_value_range a Ha). lia.
Qed.

Lemma digits_value_nonneg (s : str) : all_digits s -> (0 <= digits_value s)%Z.
Proof. intro H. unfold digits_value. apply digits_value_nonneg_aux; [assumption | lia]. Qed.

(** ** [parse_decimal] on digits, commas and a point *)

Lemma replace_app (old : ascii) (new s t : str) :
  replace old new (s ++ t) = replace old new s ++ replace old new t.
Proof.
  induction s as [|a s IH]; [reflexivity|]. cbn [replace app].
  destruct (Ascii.eqb a old); rewrite IH; [now rewrite app_assoc | reflexivity].
Qed.

Lemma all_digits_absent (s : str) (c : ascii) :
  all_digits s -> isdecimal c = false -> ~ In c s.
Proof.
  intros F Hc H. unfold all_digits in F. rewrite Forall_forall in F.
  apply F in H. congruence.
Qed.

Lemma all_digits_no_literal_space (s : str) :
  all_digits s -> Forall (fun c => isspace_literal c = false) s.
Proof.
  intro F. eapply Forall_impl; [|exact F]. intros c Hc. cbv beta in Hc.
  pose proof (space_literal_is_space c) as S. pose proof (digit_not_space c Hc) as D.
  destruct (isspace_literal c); [|reflexivity]. rewrite S in D by reflexivity. discriminate.
Qed.

Lemma all_digits_no_space (s : str) :
  all_digits s -> Forall (fun c => isspace c = false) s.
Proof.
  intro F. eapply Forall_impl; [|exact F]. intros c Hc. now apply digit_not_space.
Qed.

Lemma span_digits_all (s : str) : all_digits s -> span_digits s = (s, []).
Proof.
  intro F. rewrite <- (app_nil_r s) at 1. now apply span_digits_app.
Qed.

(** Digits, a point, digits: [float()] reads the decimal number. *)
Lemma py_float_decimal (ip fp : str) :
  all_digits ip -> all_digits fp -> ip ++ fp <> [] ->
  py_float (ip ++ "."%char :: fp) = Ok (binary64 (decimal_value ip fp)).
Proof.
  intros Fi Ff NE. unfold py_float.
  rewrite strip_with_id.
  2:{ apply Forall_app. split; [now apply all_digits_no_literal_space|].
      constructor; [reflexivity | now apply all_digits_no_literal_space]. }
  rewrite strip_underscores_none.
  2:{ intro H. apply in_app_or in H. destruct H as [H | [H | H]].
      - revert H. now apply all_digits_absent.
      - discriminate.
      - revert H. now apply all_digits_absent. }
  rewrite split_sign_unsigned.
  2:{ destruct ip as [|a ip']; [now split|].
      cbn [app]. inversion Fi; subst. now apply digit_not_sign. }
  assert (D : decimal_literal (ip ++ "."%char :: fp) = Some (decimal_value ip fp)).
  { unfold decimal_literal. rewrite span_digits_app by (assumption || reflexivity).
    change (Ascii.eqb "." ".") with true. cbv iota.
    rewrite span_digits_all by assumption.
    destruct (ip ++ fp) eqn:E; [contradiction|]. rewrite <- E. reflexivity. }
  now rewrite D.
Qed.

Lemma strip_no_space (s : str) :
  Forall (fun c => isspace c = false) s ->
  replace " " [] (strip s) = s.
Proof.
  intro F. unfold strip. rewrite strip_with_id by assumption.
  apply replace_absent. now apply no_space_absent.
Qed.

Lemma count_digits (s : str) (c : ascii) :
  all_digits s -> isdecimal c = false -> count c s = O.
Proof. intros F Hc. apply count_zero. now apply all_digits_absent. Qed.

(** One comma between digits is the decimal point. *)
Lemma parse_decimal_comma (ip fp : str) :
  all_digits ip -> all_digits fp -> ip ++ fp <> [] ->
  parse_decimal (string_of_list_ascii (ip ++ ","%char :: fp))
  = Ok (binary64 (decimal_value ip fp)).
Proof.
  intros Fi Ff NE. rewrite parse_decimal_fallback. unfold decimal_text.
  rewrite list_ascii_of_string_of_list_ascii.
  rewrite strip_no_space.
  2:{ apply Forall_app. split; [now apply all_digits_no_space|].
      constructor; [reflexivity | now apply all_digits_no_space]. }
  rewrite !count_app. cbn [count].
  change (Ascii.eqb "," ",") with true. change (Ascii.eqb "," ".") with false. cbv iota.
  rewrite !(count_digits ip), !(count_digits fp) by (assumption || reflexivity).
  cbn [Nat.add Nat.eqb andb].
  rewrite replace_app. cbn [replace]. change (Ascii.eqb "," ",") with true. cbv iota.
  rewrite !replace_absent by (apply all_digits_absent; [assumption | reflexivity]).
  cbn [app]. now rewrite py_float_decimal.
Qed.

Lemma replace_commas_digits (g : str) :
  Forall (fun c => isdecimal c = true \/ c = ","%char) g ->
  replace "," [] g = filter isdecimal g.
Proof.
  induction 1 as [|a s Ha F IH]; [reflexivity|].
  destruct Ha as [Ha | ->].
  - cbn [replace filter].
    assert (Ec : Ascii.eqb a "," = false).
    { destruct (Ascii.eqb a ",") eqn:E; [|reflexivity].
      apply Ascii.eqb_eq in E. subst a. discriminate. }
    rewrite Ec, Ha, IH. reflexivity.
  - cbn [replace filter]. change (Ascii.eqb "," ",") with true. cbv iota.
    change (isdecimal ",") with false. cbv iota. exact IH.
Qed.

(** With a point in the text every comma is dropped and the point is the
    decimal point. *)
Lemma parse_decimal_point (g fp : str) :
  Forall (fun c => isdecimal c = true \/ c = ","%char) g -> all_digits fp ->
  filter isdecimal g ++ fp <> [] ->
  parse_decimal (string_of_list_ascii (g ++ "."%char :: fp))
  = Ok (binary64 (decimal_value (filter isdecimal g) fp)).
Proof.
  intros Fg Ff NE. rewrite parse_decimal_fallback. unfold decimal_text.
  rewrite list_ascii_of_string_of_list_ascii.
  rewrite strip_no_space.
  2:{ apply Forall_app. split.
      - eapply Forall_impl; [|exact Fg]. intros c [H | ->];
          [now apply digit_not_space | reflexivity].
      - constructor; [reflexivity | now apply all_digits_no_space]. }
  assert (Cp : (count "." (g ++ "."%char :: fp) =? 0)%nat = false).
  { rewrite count_app. cbn [count]. change (Ascii.eqb "." ".") with true. cbv iota.
    apply Nat.eqb_neq. lia. }
  rewrite Cp, andb_false_r.
  rewrite replace_app. cbn [replace]. change (Ascii.eqb "." ",") with false. cbv iota.
  rewrite replace_commas_digits by assumption.
  rewrite (replace_absent "," [] fp) by (apply all_digits_absent; [assumption | reflexivity]).
  rewrite py_float_decimal; [reflexivity | apply filter_digits_all | assumption | assumption].
Qed.

(** The test on the commas and points reads them off the text itself. *)
Lemma count_cleaned (text : string) (c : ascii) :
  isspace c = false ->
  count c (replace " " [] (strip (list_ascii_of_string text)))
  = count c (list_ascii_of_string text).
Proof.
  intro W. rewrite count_replace_other.
  - unfold strip. now apply count_strip_with.
  - intros ->. rewrite space_is_space in W. discriminate.
  - intros [].
Qed.

(** ** Writing integers: digits and groups of three *)

Lemma digit_char_spec (d : Z) :
  (0 <= d <= 9)%Z -> isdecimal (digit_char d) = true /\ digit_value (digit_char d) = d.
Proof.
  intro H.
  assert (C : (d = 0 \/ d = 1 \/ d = 2 \/ d = 3 \/ d = 4 \/ d = 5 \/ d = 6 \/ d = 7
               \/ d = 8 \/ d = 9)%Z) by lia.
  repeat (destruct C as [-> | C]; [split; reflexivity|]). subst d. split; reflexivity.
Qed.

Lemma digits_value_app (s : str) (c : ascii) :
  digits_value (s ++ [c]) = (10 * digits_value s + digit_value c)%Z.
Proof. unfold digits_value. rewrite fold_left_app. reflexivity. Qed.

Lemma decimal_digits_spec (fuel : nat) :
  forall n, (0 <= n < 2 ^ Z.of_nat (S fuel))%Z ->
  all_digits (decimal_digits (S fuel) n)
  /\ decimal_digits (S fuel) n <> []
  /\ digits_value (decimal_digits (S fuel) n) = n
  /\ (List.length (decimal_digits (S fuel) n) <= S fuel)%nat.
Proof.
  induction fuel as [|fuel IH]; intros n H.
  - assert (L : (n <? 10)%Z = true) by (apply Z.ltb_lt; change (2 ^ Z.of_nat 1)%Z with 2%Z in H; lia).
    cbn [decimal_digits]. rewrite L.
    destruct (digit_char_spec n) as [D V]; [change (2 ^ Z.of_nat 1)%Z with 2%Z in H; lia|].
    repeat split.
    + constructor; [exact D | constructor].
    + discriminate.
    + unfold digits_value. cbn [fold_left]. rewrite V. lia.
    + cbn [List.length]. lia.
  - change (decimal_digits (S (S fuel)) n)
      with (if (n <? 10)%Z then [digit_char n]
            else decimal_digits (S fuel) (n / 10) ++ [digit_char (n mod 10)]).
    destruct (n <? 10)%Z eqn:L.
    + apply Z.ltb_lt in L. destruct (digit_char_spec n) as [D V]; [lia|].
      repeat split.
      * constructor; [exact D | constructor].
      * discriminate.
      * unfold digits_value. cbn [fold_left]. rewrite V. lia.
      * cbn [List.length]. lia.
    + apply Z.ltb_ge in L.
      assert (B : (0 <= n / 10 < 2 ^ Z.of_nat (S fuel))%Z).
      { split; [apply Z.div_pos; lia|].
        apply Z.div_lt_upper_bound; [lia|].
        replace (Z.of_nat (S (S fuel))) with (Z.succ (Z.of_nat (S fuel))) in H by lia.
        rewrite Z.pow_succ_r in H by lia.
        pose proof (Z.pow_pos_nonneg 2 (Z.of_nat (S fuel))). lia. }
      destruct (IH _ B) as (A & N & V & Len).
      destruct (digit_char_spec (n mod 10)) as [D V']; [pose proof (Z.mod_pos_bound n 10); lia|].
      repeat split.
      * apply Forall_app. split; [exact A | constructor; [exact D | constructor]].
      * intro E. apply app_eq_nil in E. destruct E as [_ E]. discriminate.
      * rewrite digits_value_app, V, V'. pose proof (Z.div_mod n 10). lia.
      * rewrite length_app. cbn [List.length]. lia.
Qed.

(** [str(n)] is the decimal writing of [n]: digits only, at least one, that
    read back as [n]. *)
Lemma str_of_nonneg_spec (n : Z) :
  (0 <= n)%Z ->
  all_digits (str_of_nonneg n)
  /\ str_of_nonneg n <> []
  /\ digits_value (str_of_nonneg n) = n
  /\ (List.length (str_of_nonneg n) <= S (Z.to_nat (Z.log2 n)))%nat.
Proof.
  intro H. unfold str_of_nonneg. apply decimal_digits_spec.
  split; [assumption|].
  rewrite Nat2Z.inj_succ, Z2Nat.id by apply Z.log2_nonneg.
  destruct (Z.eq_dec n 0) as [-> | N]; [reflexivity|].
  apply Z.log2_spec. lia.
Qed.

Lemma str_of_nonneg_short (n : Z) :
  (0 <= n < 2 ^ 53)%Z -> (List.length (str_of_nonneg n) <= int_max_str_digits)%nat.
Proof.
  intro H. destruct (str_of_nonneg_spec n) as (_ & _ & _ & L); [lia|].
  assert (B : (Z.log2 n < 53)%Z).
  { destruct (Z.eq_dec n 0) as [-> | N]; [reflexivity|]. apply Z.log2_lt_pow2; lia. }
  pose proof (Z.log2_nonneg n). unfold int_max_str_digits. lia.
Qed.

Lemma group3_In (k : nat) :
  forall l c, (List.length l <= k)%nat -> In c (group3 l) -> In c l \/ c = ","%char.
Proof.
  induction k as [|k IH]; intros l c Len H.
  - destruct l; [destruct H | cbn [List.length] in Len; lia].
  - destruct l as [|a [|b [|x [|y rest]]]]; try (left; exact H).
    change (group3 (a :: b :: x :: y :: rest))
      with (a :: b :: x :: ","%char :: group3 (y :: rest)) in H.
    cbn [List.length] in Len.
    destruct H as [<- | [<- | [<- | [<- | H]]]].
    + left. left. reflexivity.
    + left. right. left. reflexivity.
    + left. right. right. left. reflexivity.
    + right. reflexivity.
    + apply IH in H; [|cbn [List.length]; lia].
      destruct H as [H | H]; [left; right; right; right; exact H | right; exact H].
Qed.

Lemma group3_filter (k : nat) :
  forall l, (List.length l <= k)%nat ->
            filter isdecimal (group3 l) = filter isdecimal l.
Proof.
  induction k as [|k IH]; intros l Len.
  - destruct l; [reflexivity | cbn [List.length] in Len; lia].
  - destruct l as [|a [|b [|x [|y rest]]]]; try reflexivity.
    cbn [List.length] in Len.
    change (group3 (a :: b :: x :: y :: rest))
      with (a :: b :: x :: ","%char :: group3 (y :: rest)).
    change (a :: b :: x :: ","%char :: group3 (y :: rest))
      with (([a; b; x] ++ [","%char]) ++ group3 (y :: rest)).
    change (a :: b :: x :: y :: rest) with ([a; b; x] ++ (y :: rest)).
    rewrite !filter_app, IH by (cbn [List.length]; lia).
    change (filter isdecimal [","%char]) with (@nil ascii).
    now rewrite app_nil_r.
Qed.

(** The grouped digits: digits and commas, and the digits when the commas
    are taken out. *)
Lemma thousands_chars (ds : str) :
  all_digits ds -> Forall (fun c => isdecimal c = true \/ c = ","%char) (thousands ds).
Proof.
  intro A. apply Forall_forall. intros c H. unfold thousands in H.
  apply in_rev in H. apply (group3_In (List.length (rev ds))) in H; [|lia].
  destruct H as [H | H]; [|right; exact H].
  left. apply in_rev in H. unfold all_digits in A. rewrite Forall_forall in A. now apply A.
Qed.

Lemma filter_all_digits (ds : str) : all_digits ds -> filter isdecimal ds = ds.
Proof.
  induction 1 as [|a s Ha F IH]; [reflexivity|]. cbn [filter]. now rewrite Ha, IH.
Qed.

Lemma thousands_digits (ds : str) :
  all_digits ds -> filter isdecimal (thousands ds) = ds.
Proof.
  intro A. unfold thousands.
  rewrite filter_rev, (group3_filter (List.length (rev ds))) by lia.
  rewrite filter_rev, rev_involutive. now apply filter_all_digits.
Qed.

Lemma thousands_nonempty (ds : str) : ds <> [] -> thousands ds <> [].
Proof.
  intros N E. unfold thousands in E.
  assert (R : group3 (rev ds) = []).
  { rewrite <- (rev_involutive (group3 (rev ds))), E. reflexivity. }
  destruct (rev ds) as [|a [|b [|x [|y rest]]]] eqn:D; try discriminate R.
  apply N. rewrite <- (rev_involutive ds), D. reflexivity.
Qed.

(** Four to six digits are grouped with one comma before the last three. *)
Lemma thousands_one_comma (ds : str) :
  (4 <= List.length ds <= 6)%nat ->
  exists ip fp,
    ds = ip ++ fp /\ ip <> [] /\ List.length fp = 3%nat
    /\ thousands ds = ip ++ ","%char :: fp.
Proof.
  intro Len. unfold thousands.
  assert (LR : (4 <= List.length (rev ds) <= 6)%nat) by (rewrite length_rev; exact Len).
  assert (D : ds = rev (rev ds)) by (symmetry; apply rev_involutive).
  destruct (rev ds) as [|a [|b [|x [|y rest]]]] eqn:R;
    cbn [List.length] in LR; try lia.
  assert (G : group3 (y :: rest) = y :: rest).
  { destruct rest as [|z [|w [|v more]]]; try reflexivity. cbn [List.length] in LR. lia. }
  change (group3 (a :: b :: x :: y :: rest))
    with (a :: b :: x :: ","%char :: group3 (y :: rest)).
  rewrite G.
  exists (rev (y :: rest)), [x; b; a]. repeat split.
  - rewrite D. change (a :: b :: x :: y :: rest) with ([a; b; x] ++ (y :: rest)).
    rewrite rev_app_distr. reflexivity.
  - intro E. assert (E' : rev (rev (y :: rest)) = rev []) by (rewrite E; reflexivity).
    rewrite rev_involutive in E'. discriminate E'.
  - change (a :: b :: x :: ","%char :: y :: rest) with ([a; b; x; ","%char] ++ (y :: rest)).
    rewrite rev_app_distr. reflexivity.
Qed.

(** ** Reading back what was written *)

Lemma py_int_unsigned (ds : str) :
  ds <> [] -> all_digits ds -> (List.length ds <= int_max_str_digits)%nat ->
  py_int ds = Ok (digits_value ds).
Proof.
  intros N A L. unfold py_int.
  rewrite strip_with_id by now apply all_digits_no_literal_space.
  rewrite split_sign_unsigned.
  - rewrite digitpart_digits by assumption.
    apply Nat.ltb_ge in L. now rewrite L.
  - destruct ds as [|c ds]; [exact I|]. inversion A; subst. now apply digit_not_sign.
Qed.

(** [f"{n:,}"] read by [int()] once its commas are removed. *)
Lemma format_int_commas_spec (n : Z) :
  format_int_commas n
  = (if (n <? 0)%Z then ["-"%char] else []) ++ thousands (str_of_nonneg (Z.abs n)).
Proof.
  unfold format_int_commas. destruct (n <? 0)%Z eqn:S.
  - apply Z.ltb_lt in S. rewrite Z.abs_neq by lia. reflexivity.
  - apply Z.ltb_ge in S. rewrite Z.abs_eq by lia. reflexivity.
Qed.

Lemma Qabs_inject_Z (n : Z) : Qabs (inject_Z n) = inject_Z (Z.abs n).
Proof. reflexivity. Qed.

Lemma Qlt_bool_inject_Z (n : Z) : Qlt_bool (inject_Z n) 0 = (n <? 0)%Z.
Proof.
  destruct (n <? 0)%Z eqn:S.
  - apply Qlt_bool_iff. apply Z.ltb_lt in S. change 0 with (inject_Z 0).
    now rewrite <- Zlt_Qlt.
  - apply Z.ltb_ge in S. apply Bool.not_true_is_false. intro H.
    apply Qlt_bool_iff in H. change 0 with (inject_Z 0) in H.
    rewrite <- Zlt_Qlt in H. lia.
Qed.

(** The [.0f] format of an int below [2^53] is its [,] format: the float it
    goes through is the int itself. *)
Lemma format_int_f0_small (n : Z) :
  (Z.abs n < 2 ^ 53)%Z -> format_int_f0 n = Ok (format_int_commas n).
Proof.
  intro B. unfold format_int_f0. rewrite float_of_int_small by assumption.
  cbn [bind]. f_equal. unfold format_float_f0.
  rewrite Qabs_inject_Z, (round_half_even_int _ (Z.abs n)) by reflexivity.
  rewrite Qlt_bool_inject_Z, format_int_commas_spec.
  destruct (n <? 0)%Z; reflexivity.
Qed.

(** ** The size of a written integer *)

Lemma digits_value_bound (ds : str) :
  all_digits ds -> (0 <= digits_value ds < 10 ^ Z.of_nat (List.length ds))%Z.
Proof.
  induction ds as [|a ds IH] using rev_ind; intro A.
  - cbn. lia.
  - apply Forall_app in A. destruct A as [A Ha]. inversion Ha as [|? ? Da _]. subst.
    rewrite digits_value_app, length_app, Nat2Z.inj_add. cbn [List.length].
    rewrite Z.pow_add_r by lia. change (10 ^ Z.of_nat 1)%Z with 10%Z.
    pose proof (digit_value_range a Da). specialize (IH A). lia.
Qed.

Lemma decimal_digits_length (fuel : nat) :
  forall n k, (0 <= n < 10 ^ Z.of_nat (S k))%Z ->
              (List.length (decimal_digits fuel n) <= S k)%nat.
Proof.
  induction fuel as [|fuel IH]; intros n k H; [cbn; lia|].
  cbn [decimal_digits]. destruct (n <? 10)%Z eqn:L; [cbn; lia|].
  apply Z.ltb_ge in L. rewrite length_app. cbn [List.length].
  destruct k as [|k]; [change (10 ^ Z.of_nat 1)%Z with 10%Z in H; lia|].
  assert (B : (0 <= n / 10 < 10 ^ Z.of_nat (S k))%Z).
  { split; [apply Z.div_pos; lia|]. apply Z.div_lt_upper_bound; [lia|].
    replace (Z.of_nat (S (S k))) with (Z.succ (Z.of_nat (S k))) in H by lia.
    rewrite Z.pow_succ_r in H by lia. lia. }
  specialize (IH _ _ B). lia.
Qed.

(** An integer from [1000] to [999999] is written with four to six digits. *)
Lemma str_of_nonneg_thousands (n : Z) :
  (1000 <= n < 1000000)%Z -> (4 <= List.length (str_of_nonneg n) <= 6)%nat.
Proof.
  intro H. destruct (str_of_nonneg_spec n) as (A & _ & V & _); [lia|].
  pose proof (digits_value_bound _ A) as B. rewrite V in B.
  split.
  - destruct (le_lt_dec 4 (List.length (str_of_nonneg n))) as [G | G]; [exact G|].
    exfalso.
    assert (P : (10 ^ Z.of_nat (List.length (str_of_nonneg n)) <= 10 ^ 3)%Z)
      by (apply Z.pow_le_mono_r; lia).
    change (10 ^ 3)%Z with 1000%Z in P. lia.
  - unfold str_of_nonneg. apply (decimal_digits_length _ n 5).
    change (10 ^ Z.of_nat 6)%Z with 1000000%Z. lia.
Qed.

(** Up to three digits are left as they are. *)
Lemma thousands_short (ds : str) : (List.length ds <= 3)%nat -> thousands ds = ds.
Proof.
  intro L. unfold thousands.
  assert (R : group3 (rev ds) = rev ds).
  { assert (LR : (List.length (rev ds) <= 3)%nat) by (rewrite length_rev; exact L).
    destruct (rev ds) as [|a [|b [|x [|y rest]]]]; try reflexivity.
    cbn [List.length] in LR. lia. }
  rewrite R. apply rev_involutive.
Qed.

(** ** Rounding to binary64: an integer stays a whole number *)

Lemma binary64_int_whole (z : Z) (q : Q) :
  binary64 (inject_Z z) = Fin q -> exists m, q = inject_Z m.
Proof.
  destruct (Z_lt_le_dec (Z.abs z) (2 ^ 53)) as [S | B].
  - rewrite binary64_small_int by assumption. intro H. inversion H. eauto.
  - unfold binary64.
    assert (NZ : z <> 0%Z).
    { intros ->. change (Z.abs 0) with 0%Z in B. pose proof (Z.pow_pos_nonneg 2 53). lia. }
    assert (E0 : Qeq_bool (inject_Z z) 0 = false).
    { apply Qeq_bool_false. intro E. change 0 with (inject_Z 0) in E.
      rewrite inject_Z_injective in E. contradiction. }
    rewrite E0, Qabs_inject_Z.
    set (a := Z.abs z) in *.
    assert (Ha : (0 < a)%Z) by (subst a; lia).
    rewrite floor_log2_int by assumption.
    assert (HL : (53 <= Z.log2 a)%Z) by (apply Z.log2_le_pow2; lia).
    rewrite Z.max_l by lia.
    set (e := (Z.log2 a - 52)%Z).
    set (m := round_half_even (inject_Z a / 2 ^ e)).
    assert (V : inject_Z m * 2 ^ e == inject_Z (m * 2 ^ e)).
    { rewrite Qpower_2_nonneg by (subst e; lia). now rewrite inject_Z_mult. }
    destruct (Qle_bool (2 ^ 1024) (inject_Z m * 2 ^ e)); [discriminate|].
    intro H. inversion H as [H']. clear H H'.
    destruct (Qlt_bool (inject_Z z) 0).
    + exists (- (m * 2 ^ e))%Z.
      transitivity (Qred (inject_Z (- (m * 2 ^ e)))); [apply Qred_complete | apply Qred_inject_Z].
      rewrite V, inject_Z_opp. reflexivity.
    + exists (m * 2 ^ e)%Z.
      transitivity (Qred (inject_Z (m * 2 ^ e))); [apply Qred_complete | apply Qred_inject_Z].
      exact V.
Qed.

Lemma float_of_int_whole (z : Z) (v : pyfloat) :
  float_of_int z = Ok v -> exists m, v = Fin (inject_Z m).
Proof.
  unfold float_of_int. destruct (binary64 (inject_Z z)) as [q | b |] eqn:E.
  - intro H. inversion H. subst v. destruct (binary64_int_whole z q E) as [m ->]. eauto.
  - discriminate.
  - unfold binary64 in E. destruct (Qeq_bool (inject_Z z) 0); [discriminate|].
    destruct (Qle_bool _ _); discriminate.
Qed.

Lemma parse_money_whole (text : string) :
  exists n, parse_money text = Ok (Fin (inject_Z n)).
Proof.
  rewrite parse_money_unfold.
  destruct (str_eqb _ []); [exists 0%Z; reflexivity|].
  destruct (_ || _); [exists 0%Z; reflexivity|].
  destruct (py_int (money_text text)) as [z | e]; [|exists 0%Z; reflexivity].
  cbn [bind]. destruct (float_of_int z) as [v | e] eqn:F; [|exists 0%Z; reflexivity].
  destruct (float_of_int_whole z v F) as [m ->]. exists m. reflexivity.
Qed.

(** ** The money parser on written integers *)

Lemma money_text_digits (d : str) :
  Forall (fun c => isdecimal c = true \/ c = ","%char \/ c = "."%char) d ->
  strip d = d /\ money_text (string_of_list_ascii d) = filter isdecimal d.
Proof.
  intro F. unfold money_text. rewrite list_ascii_of_string_of_list_ascii.
  pose proof (separators_no_space d F) as NS.
  assert (St : strip d = d) by now apply strip_with_id.
  split; [exact St|].
  rewrite St, (replace_absent " ") by now apply no_space_absent.
  now apply replace_separators_digits.
Qed.

Lemma parse_money_digits (d : str) :
  Forall (fun c => isdecimal c = true \/ c = ","%char \/ c = "."%char) d ->
  Exists (fun c => isdecimal c = true) d ->
  (List.length (filter isdecimal d) <= int_max_str_digits)%nat ->
  parse_money (string_of_list_ascii d)
  = except_Exception (float_of_int (digits_value (filter isdecimal d))) (Ok (Fin 0)).
Proof.
  intros F E L. destruct (money_text_digits d F) as [St Mt].
  rewrite parse_money_unfold, list_ascii_of_string_of_list_ascii, St, Mt.
  pose proof (filter_digits_nonempty _ E) as NE.
  assert (E1 : str_eqb d [] = false).
  { apply str_eqb_false. intros ->. apply NE. reflexivity. }
  assert (E2 : str_eqb (filter isdecimal d) [] = false) by now apply str_eqb_false.
  assert (E3 : str_eqb (filter isdecimal d) ["-"%char] = false).
  { apply str_eqb_false. intro H.
    assert (I : In "-"%char (filter isdecimal d)) by (rewrite H; left; reflexivity).
    apply filter_In in I. destruct I as [_ I]. discriminate I. }
  rewrite E1, E2, E3. cbn [orb].
  rewrite py_int_unsigned by (assumption || apply filter_digits_all).
  reflexivity.
Qed.

Lemma thousands_separators (ds : str) :
  all_digits ds ->
  Forall (fun c => isdecimal c = true \/ c = ","%char \/ c = "."%char) (thousands ds).
Proof.
  intro A. eapply Forall_impl; [|apply thousands_chars; exact A].
  intros c [H | H]; auto.
Qed.

Lemma thousands_has_digit (ds : str) :
  all_digits ds -> ds <> [] -> Exists (fun c => isdecimal c = true) (thousands ds).
Proof.
  intros A N. pose proof (thousands_digits ds A) as T.
  destruct ds as [|c ds]; [contradiction|].
  assert (I : In c (filter isdecimal (thousands (c :: ds)))) by (rewrite T; left; reflexivity).
  apply filter_In in I. apply Exists_exists. exists c. exact I.
Qed.

(** What [f"{n:,}"] writes reads back as [n]. *)
Lemma parse_money_format_int_commas (n : Z) :
  (Z.abs n < 2 ^ 53)%Z ->
  parse_money (string_of_list_ascii (format_int_commas n)) = Ok (Fin (inject_Z n)).
Proof.
  intro B. rewrite format_int_commas_spec.
  destruct (str_of_nonneg_spec (Z.abs n)) as (A & N & V & _); [lia|].
  pose proof (str_of_nonneg_short (Z.abs n)) as L.
  set (ds := str_of_nonneg (Z.abs n)) in *.
  pose proof (thousands_separators ds A) as F.
  pose proof (thousands_has_digit ds A N) as E.
  pose proof (thousands_digits ds A) as T.
  destruct (n <? 0)%Z eqn:S.
  - apply Z.ltb_lt in S.
    change (string_of_list_ascii (["-"%char] ++ thousands ds))
      with (String "-" (string_of_list_ascii (thousands ds))).
    rewrite parse_money_negative_value;
      rewrite ?list_ascii_of_string_of_list_ascii, ?T; try assumption; [|apply L; lia].
    rewrite V, float_of_int_small by lia.
    rewrite Z.abs_neq, Z.opp_involutive by lia. reflexivity.
  - apply Z.ltb_ge in S. cbn [app].
    rewrite parse_money_digits; rewrite ?T; try assumption; [|apply L; lia].
    rewrite V, float_of_int_small by lia.
    rewrite Z.abs_eq by lia. reflexivity.
Qed.

(** ** The display formatters *)

Lemma fmt_int_small (q : Q) :
  (Z.abs (round_half_even q) < 2 ^ 53)%Z ->
  fmt_int (Fin q) = Ok (format_int_commas (round_half_even q)).
Proof.
  intro B. unfold fmt_int. cbn [py_round bind].
  now rewrite format_int_f0_small.
Qed.

Lemma fmt_int_total (x : pyfloat) : exists s, fmt_int x = Ok s.
Proof. apply except_Exception_Ok. Qed.

(** [f"{n:,}"] without its commas is [str(n)], which [int()] reads as [n]. *)
Lemma py_int_format_int_commas (n : Z) :
  (Z.abs n < 2 ^ 53)%Z -> py_int (replace "," [] (format_int_commas n)) = Ok n.
Proof.
  intro B. rewrite format_int_commas_spec.
  destruct (str_of_nonneg_spec (Z.abs n)) as (A & N & V & _); [lia|].
  pose proof (str_of_nonneg_short (Z.abs n)) as L.
  set (ds := str_of_nonneg (Z.abs n)) in *.
  rewrite replace_app, (replace_commas_digits (thousands ds)) by now apply thousands_chars.
  rewrite thousands_digits by assumption.
  destruct (n <? 0)%Z eqn:S.
  - apply Z.ltb_lt in S. change (replace "," [] ["-"%char] ++ ds) with ("-"%char :: ds).
    rewrite py_int_negative by (try assumption; apply L; lia).
    rewrite V. f_equal. lia.
  - apply Z.ltb_ge in S. change (replace "," [] [] ++ ds) with ds.
    rewrite py_int_unsigned by (try assumption; apply L; lia).
    rewrite V. f_equal. lia.
Qed.

(** ** The clamp of [percent_text_input] *)

Ltac float_cases :=
  repeat match goal with
         | |- context [Qlt_bool ?a ?b] => destruct (Qlt_bool a b) eqn:?
         | |- context [Qle_bool ?a ?b] => destruct (Qle_bool a b) eqn:?
         end;
  repeat match goal with
         | H : Qlt_bool _ _ = true |- _ => apply Qlt_bool_iff in H
         | H : Qlt_bool _ _ = false |- _ => apply Qlt_bool_false in H
         | H : Qle_bool _ _ = true |- _ => apply Qle_bool_iff in H
         | H : Qle_bool _ _ = false |- _ =>
             apply Bool.not_true_iff_false in H; rewrite Qle_bool_iff in H
         end.

Lemma clamp_range (parsed min_val max_val : pyfloat) :
  float_le min_val max_val = true ->
  let low := if float_lt parsed min_val then min_val else parsed in
  let v := if float_lt max_val low then max_val else low in
  (float_le min_val v = true /\ float_le v max_val = true)
  \/ (parsed = NaN /\ v = NaN).
Proof.
  destruct parsed as [p | [|] |], min_val as [a | [|] |], max_val as [b | [|] |];
    cbn [float_le float_lt negb andb orb]; intro H; try discriminate H;
    try (right; split; reflexivity);
    try (apply Qle_bool_iff in H);
    float_cases;
    cbn [float_le float_lt negb andb orb];
    try (left; split; try reflexivity; apply Qle_bool_iff; lra);
    try (left; split; reflexivity);
    try (exfalso; lra).
Qed.

Lemma clamp_nan (min_val max_val : pyfloat) :
  let low := if float_lt NaN min_val then min_val else NaN in
  (if float_lt max_val low then max_val else low) = NaN.
Proof. destruct min_val as [a | [|] |], max_val as [b | [|] |]; reflexivity. Qed.

Lemma format_decimal_with_commas_total (x : pyfloat) :
  exists s, format_decimal_with_commas x = Ok s.
Proof. apply except_Exception_Ok. Qed.

Lemma session_set_same (session : session_state) (key : string) (v : pyfloat) :
  session_set session key v key = Some v.
Proof. unfold session_set. now rewrite String.eqb_refl. Qed.

Lemma session_set_other (session : session_state) (key k : string) (v : pyfloat) :
  k <> key -> session_set session key v k = session k.
Proof.
  intro N. unfold session_set. destruct (String.eqb k key) eqn:E; [|reflexivity].
  apply String.eqb_eq in E. contradiction.
Qed.

(** ** [str] of a whole float

    A float that is an integer [n] with [1 <= n < 2^53] and [n < 10^16] is
    written with the digits of [n] and [.0]: the shortest digits that read
    back as [n] are those of [n] without its trailing zeros. *)

Lemma Qpower_positive_den (a : Z) (p : positive) :
  Qden (Qpower_positive (inject_Z a) p) = 1%positive.
Proof.
  unfold Qpower_positive.
  induction p as [p IH | p IH |]; cbn [pow_pos Qmult Qden inject_Z];
    try rewrite IH; reflexivity.
Qed.

Lemma Qpower_positive_inject (a : Z) (p : positive) :
  Qpower_positive (inject_Z a) p = inject_Z (a ^ Zpos p).
Proof.
  pose proof (Qpower_positive_den a p) as D.
  assert (E : Qpower_positive (inject_Z a) p == inject_Z (a ^ Zpos p)).
  { rewrite Zpower_Qpower by lia. reflexivity. }
  destruct (Qpower_positive (inject_Z a) p) as [u v]. cbn [Qden] in D. subst v.
  unfold Qeq in E. cbn [Qnum Qden inject_Z] in E. unfold inject_Z. f_equal. lia.
Qed.

Lemma Qpower_10_neg (j : Z) :
  (0 <= j)%Z -> 10 ^ (- j) = 1 # Z.to_pos (10 ^ j).
Proof.
  intro H. destruct j as [|p|p]; [reflexivity| |lia].
  change (10 ^ (- Zpos p)) with (/ Qpower_positive (inject_Z 10) p).
  rewrite Qpower_positive_inject.
  pose proof (Z.pow_pos_nonneg 10 (Zpos p)) as P.
  destruct (10 ^ Zpos p)%Z as [|u|u]; [lia | reflexivity | lia].
Qed.

Lemma scaled_floor (n j : Z) :
  (0 <= j)%Z -> Qfloor (inject_Z n * 10 ^ (- j)) = (n / 10 ^ j)%Z.
Proof.
  intro H. rewrite Qpower_10_neg by assumption.
  pose proof (Z.pow_pos_nonneg 10 j) as P.
  unfold Qmult, Qfloor. cbn [Qnum Qden inject_Z].
  rewrite Z.mul_1_r. change (1 * Z.to_pos (10 ^ j))%positive with (Z.to_pos (10 ^ j)).
  rewrite Z2Pos.id by lia. reflexivity.
Qed.

Lemma Qpower_10_nonneg (k : Z) : (0 <= k)%Z -> 10 ^ k == inject_Z (10 ^ k).
Proof. intro H. rewrite Zpower_Qpower by assumption. reflexivity. Qed.

Lemma unscaled (c j : Z) :
  (0 <= j)%Z -> inject_Z c / 10 ^ (- j) = inject_Z (c * 10 ^ j).
Proof.
  intro H. rewrite Qpower_10_neg by assumption.
  pose proof (Z.pow_pos_nonneg 10 j) as P.
  unfold Qdiv, Qinv, Qmult. cbn [Qnum Qden inject_Z].
  rewrite Z2Pos.id by lia. reflexivity.
Qed.

(** An integer from [2^53] on rounds to a float from [2^53] on. *)
Lemma round_half_even_floor (x : Q) : (Qfloor x <= round_half_even x)%Z.
Proof.
  unfold round_half_even. destruct (Qcompare _ _); [destruct (Z.even _)| |]; lia.
Qed.

Lemma binary64_large_int (m : Z) (q : Q) :
  (2 ^ 53 <= m)%Z -> binary64 (inject_Z m) = Fin q -> inject_Z (2 ^ 53) <= q.
Proof.
  intros B. unfold binary64.
  assert (P53 : (0 < 2 ^ 53)%Z) by reflexivity.
  assert (E0 : Qeq_bool (inject_Z m) 0 = false).
  { apply Qeq_bool_false. intro E. change 0 with (inject_Z 0) in E.
    rewrite inject_Z_injective in E. lia. }
  assert (S : Qlt_bool (inject_Z m) 0 = false).
  { rewrite Qlt_bool_inject_Z. apply Z.ltb_ge. lia. }
  rewrite E0, S, Qabs_inject_Z, Z.abs_eq by lia.
  rewrite floor_log2_int by lia.
  assert (HL : (53 <= Z.log2 m)%Z) by (apply Z.log2_le_pow2; lia).
  rewrite Z.max_l by lia.
  set (e := (Z.log2 m - 52)%Z).
  assert (He : (1 <= e)%Z) by (subst e; lia).
  set (M := round_half_even (inject_Z m / 2 ^ e)).
  assert (Pe : (0 < 2 ^ e)%Z) by (apply Z.pow_pos_nonneg; lia).
  assert (LM : (2 ^ 52 <= M)%Z).
  { subst M. eapply Z.le_trans; [|apply round_half_even_floor].
    rewrite <- (Qfloor_Z (2 ^ 52)). apply Qfloor_resp_le.
    rewrite Qpower_2_nonneg by lia.
    apply Qle_shift_div_l; [change 0 with (inject_Z 0); rewrite <- Zlt_Qlt; lia|].
    rewrite <- inject_Z_mult, <- Zle_Qle, <- Z.pow_add_r by lia.
    replace (52 + e)%Z with (Z.log2 m) by (subst e; lia).
    apply Z.log2_spec. lia. }
  destruct (Qle_bool _ _); [discriminate|].
  intro H.
  apply (f_equal (fun v => match v with Fin u => u | _ => 0 end)) in H.
  cbv beta iota in H. rewrite <- H.
  rewrite Qred_correct, Qpower_2_nonneg, <- inject_Z_mult, <- Zle_Qle by lia.
  change (2 ^ 53)%Z with (2 ^ 52 * 2 ^ 1)%Z.
  apply Z.mul_le_mono_nonneg; try lia.
  apply Z.pow_le_mono_r; lia.
Qed.

(** Reading an integer back as the float [n]: only [n] does. *)
Lemma reads_back_int (m n : Z) :
  (0 <= m)%Z -> (0 <= n < 2 ^ 53)%Z ->
  pyfloat_same (binary64 (inject_Z m)) (binary64 (inject_Z n)) = (m =? n)%Z.
Proof.
  intros Hm Hn. rewrite (binary64_small_int n) by lia.
  destruct (Z_lt_le_dec m (2 ^ 53)) as [S | L].
  - rewrite binary64_small_int by lia. cbn [pyfloat_same].
    destruct (m =? n)%Z eqn:E.
    + apply Z.eqb_eq in E. subst m. apply Qeq_bool_iff. reflexivity.
    + apply Z.eqb_neq in E. apply Qeq_bool_false. intro Q.
      rewrite inject_Z_injective in Q. contradiction.
  - assert (E : (m =? n)%Z = false) by (apply Z.eqb_neq; lia). rewrite E.
    destruct (binary64 (inject_Z m)) as [q | b |] eqn:B; cbn [pyfloat_same];
      try reflexivity.
    apply Qeq_bool_false. intro Q. apply (binary64_large_int m q L) in B.
    rewrite Q, <- Zle_Qle in B. lia.
Qed.

(** The digits tried at [k] places for the integer [n] of [E + 1] places:
    those of [n] when the places it leaves out are zeros, none else. *)
Lemma shortest_at_int (n E k : Z) :
  (1 <= n < 2 ^ 53)%Z -> (1 <= k <= E + 1)%Z ->
  shortest_at (inject_Z n) E k
  = if (n mod 10 ^ (E + 1 - k) =? 0)%Z then Some (n / 10 ^ (E + 1 - k))%Z else None.
Proof.
  intros Hn Hk. unfold shortest_at.
  set (j := (E + 1 - k)%Z).
  assert (Hj : (0 <= j)%Z) by (subst j; lia).
  replace (k - 1 - E)%Z with (- j)%Z by (subst j; lia).
  pose proof (Z.pow_pos_nonneg 10 j) as P.
  rewrite scaled_floor by assumption.
  set (lo := (n / 10 ^ j)%Z).
  assert (DM : (n = 10 ^ j * lo + n mod 10 ^ j)%Z) by (apply Z.div_mod; lia).
  pose proof (Z.mod_pos_bound n (10 ^ j)) as MB.
  assert (Hlo : (0 <= lo)%Z) by (apply Z.div_pos; lia).
  rewrite !unscaled by assumption.
  rewrite !reads_back_int by nia.
  assert (Hi : ((lo + 1) * 10 ^ j =? n)%Z = false) by (apply Z.eqb_neq; nia).
  rewrite Hi.
  destruct (n mod 10 ^ j =? 0)%Z eqn:Z0.
  - apply Z.eqb_eq in Z0.
    assert (Lo : (lo * 10 ^ j =? n)%Z = true) by (apply Z.eqb_eq; nia).
    now rewrite Lo.
  - apply Z.eqb_neq in Z0.
    assert (Lo : (lo * 10 ^ j =? n)%Z = false) by (apply Z.eqb_neq; nia).
    now rewrite Lo.
Qed.

Lemma shortest_from_int (n E : Z) (fuel : nat) :
  (1 <= n < 2 ^ 53)%Z ->
  forall k, (1 <= k <= E + 1)%Z -> (E + 1 - k < Z.of_nat fuel)%Z ->
  exists d k', shortest_from (inject_Z n) E k fuel = (d, k')
               /\ (k <= k' <= E + 1)%Z /\ (d * 10 ^ (E + 1 - k') = n)%Z.
Proof.
  intro Hn. induction fuel as [|fuel IH]; intros k Hk Hf; [lia|].
  cbn [shortest_from]. rewrite shortest_at_int by assumption.
  destruct (n mod 10 ^ (E + 1 - k) =? 0)%Z eqn:Z0.
  - apply Z.eqb_eq in Z0. exists (n / 10 ^ (E + 1 - k))%Z, k.
    split; [reflexivity|]. split; [lia|].
    pose proof (Z.pow_pos_nonneg 10 (E + 1 - k)) as P.
    pose proof (Z.div_mod n (10 ^ (E + 1 - k))) as DM. nia.
  - apply Z.eqb_neq in Z0.
    assert (K : (k < E + 1)%Z).
    { destruct (Z.eq_dec k (E + 1)) as [-> | N]; [|lia].
      replace (E + 1 - (E + 1))%Z with 0%Z in Z0 by lia.
      change (10 ^ 0)%Z with 1%Z in Z0. rewrite Z.mod_1_r in Z0. contradiction. }
    destruct (IH (k + 1)%Z) as (d & k' & S & B & V); [lia | lia|].
    exists d, k'. split; [exact S|]. split; [lia | exact V].
Qed.

(** The estimate of [floor_log10] from the binary logarithm is one off at
    most, below [2^53]. *)
Lemma log10_estimate (L : Z) :
  (0 <= L < 53)%Z ->
  (0 <= L * 30103 / 100000
   /\ 2 ^ (L + 1) <= 10 ^ (L * 30103 / 100000 + 2)
   /\ 10 ^ (L * 30103 / 100000) <= 10 * 2 ^ L)%Z.
Proof.
  intro H.
  assert (A : forallb (fun i => let L := Z.of_nat i in
                                ((0 <=? L * 30103 / 100000)
                                 && (2 ^ (L + 1) <=? 10 ^ (L * 30103 / 100000 + 2))
                                 && (10 ^ (L * 30103 / 100000) <=? 10 * 2 ^ L))%Z)
                      (seq 0 53) = true) by (vm_compute; reflexivity).
  rewrite forallb_forall in A. specialize (A (Z.to_nat L)).
  rewrite in_seq, Z2Nat.id in A by lia. cbv zeta in A.
  rewrite !Bool.andb_true_iff, !Z.leb_le in A.
  destruct A as [[A1 A2] A3]; [lia|]. repeat split; assumption.
Qed.

Lemma floor_log10_int (n : Z) :
  (1 <= n < 2 ^ 53)%Z ->
  (0 <= floor_log10 (inject_Z n) <= 15
   /\ 10 ^ floor_log10 (inject_Z n) <= n < 10 ^ (floor_log10 (inject_Z n) + 1))%Z.
Proof.
  intro H. unfold floor_log10. rewrite floor_log2_int by lia.
  pose proof (Z.log2_spec n) as LS.
  assert (HL : (0 <= Z.log2 n < 53)%Z).
  { split; [apply Z.log2_nonneg | apply Z.log2_lt_pow2; lia]. }
  destruct (log10_estimate (Z.log2 n) HL) as (E0 & Up & Lo).
  set (e := (Z.log2 n * 30103 / 100000)%Z) in *.
  replace (Z.succ (Z.log2 n)) with (Z.log2 n + 1)%Z in LS by lia.
  assert (Small : forall E, (0 <= E)%Z -> (10 ^ E <= n)%Z -> (E <= 15)%Z).
  { intros E HE B. destruct (Z_le_gt_dec E 15) as [G | G]; [exact G|]. exfalso.
    assert (P : (10 ^ 16 <= 10 ^ E)%Z) by (apply Z.pow_le_mono_r; lia).
    assert (Q : (2 ^ 53 < 10 ^ 16)%Z) by reflexivity. lia. }
  destruct (Qle_bool (10 ^ (e + 1)) (inject_Z n)) eqn:T1.
  - apply Qle_bool_iff in T1. rewrite Qpower_10_nonneg, <- Zle_Qle in T1 by lia.
    replace (e + 1 + 1)%Z with (e + 2)%Z by lia.
    split; [split; [lia | apply Small; lia] | lia].
  - apply Bool.not_true_iff_false in T1. rewrite Qle_bool_iff in T1.
    rewrite Qpower_10_nonneg, <- Zle_Qle in T1 by lia.
    destruct (Qle_bool (10 ^ e) (inject_Z n)) eqn:T2.
    + apply Qle_bool_iff in T2. rewrite Qpower_10_nonneg, <- Zle_Qle in T2 by lia.
      split; [split; [lia | apply Small; lia] | lia].
    + apply Bool.not_true_iff_false in T2. rewrite Qle_bool_iff in T2.
      rewrite Qpower_10_nonneg, <- Zle_Qle in T2 by lia.
      assert (Pos : (1 <= e)%Z).
      { destruct (Z.eq_dec e 0) as [Z0 | N]; [|lia].
        rewrite Z0 in T2. change (10 ^ 0)%Z with 1%Z in T2. lia. }
      replace (e - 1 + 1)%Z with e by lia.
      assert (Pw : (10 ^ e = 10 * 10 ^ (e - 1))%Z).
      { rewrite <- Z.pow_succ_r by lia. f_equal. lia. }
      split; [split; [lia | apply Small; lia] | lia].
Qed.

(** ** Digits of a multiple of a power of ten *)

Lemma decimal_digits_fuel (f1 : nat) :
  forall f2 n, (1 <= f1)%nat -> (1 <= f2)%nat ->
               (0 <= n < 2 ^ Z.of_nat f1)%Z -> (n < 2 ^ Z.of_nat f2)%Z ->
               decimal_digits f1 n = decimal_digits f2 n.
Proof.
  induction f1 as [|f1 IH]; intros f2 n P1 P2 H1 H2; [lia|].
  destruct f2 as [|f2]; [lia|].
  cbn [decimal_digits]. destruct (n <? 10)%Z eqn:L; [reflexivity|].
  apply Z.ltb_ge in L. f_equal.
  rewrite Nat2Z.inj_succ, Z.pow_succ_r in H1, H2 by lia.
  assert (Q1 : (1 <= f1)%nat).
  { destruct f1; [change (2 ^ Z.of_nat 0)%Z with 1%Z in H1; lia | lia]. }
  assert (Q2 : (1 <= f2)%nat).
  { destruct f2; [change (2 ^ Z.of_nat 0)%Z with 1%Z in H2; lia | lia]. }
  apply IH; try assumption.
  - split; [apply Z.div_pos; lia|]. apply Z.div_lt_upper_bound; lia.
  - apply Z.div_lt_upper_bound; lia.
Qed.

Lemma str_of_nonneg_fuel (n : Z) (fuel : nat) :
  (1 <= fuel)%nat -> (0 <= n < 2 ^ Z.of_nat fuel)%Z ->
  str_of_nonneg n = decimal_digits fuel n.
Proof.
  intros F H. unfold str_of_nonneg. apply decimal_digits_fuel; [lia | exact F | | lia].
  split; [lia|].
  rewrite Nat2Z.inj_succ, Z2Nat.id by apply Z.log2_nonneg.
  destruct (Z.eq_dec n 0) as [-> | N]; [reflexivity|].
  apply Z.log2_spec. lia.
Qed.

Lemma str_of_nonneg_times_10 (m : Z) :
  (1 <= m)%Z -> str_of_nonneg (10 * m) = str_of_nonneg m ++ ["0"%char].
Proof.
  intro H. unfold str_of_nonneg at 1. cbn [decimal_digits].
  assert (L : (10 * m <? 10)%Z = false) by (apply Z.ltb_ge; lia). rewrite L.
  replace (10 * m / 10)%Z with m by (rewrite Z.mul_comm, Z.div_mul; lia).
  replace (10 * m mod 10)%Z with 0%Z by (rewrite Z.mul_comm, Z.mod_mul; lia).
  f_equal. symmetry.
  pose proof (Z.log2_nonneg (10 * m)) as NN.
  assert (S3 : (3 <= Z.log2 (10 * m))%Z) by (apply Z.log2_le_pow2; lia).
  apply str_of_nonneg_fuel; [lia|].
  split; [lia|]. rewrite Z2Nat.id by lia.
  assert (Q : (10 * m < 2 ^ Z.succ (Z.log2 (10 * m)))%Z) by (apply Z.log2_spec; lia).
  rewrite Z.pow_succ_r in Q by lia. lia.
Qed.

Lemma str_of_nonneg_times_pow (d : Z) (j : nat) :
  (1 <= d)%Z ->
  str_of_nonneg (d * 10 ^ Z.of_nat j) = str_of_nonneg d ++ repeat "0"%char j.
Proof.
  intro H. induction j as [|j IH]; [now rewrite Z.mul_1_r, app_nil_r|].
  rewrite Nat2Z.inj_succ, Z.pow_succ_r by lia.
  replace (d * (10 * 10 ^ Z.of_nat j))%Z with (10 * (d * 10 ^ Z.of_nat j))%Z by lia.
  pose proof (Z.pow_pos_nonneg 10 (Z.of_nat j)) as P.
  rewrite str_of_nonneg_times_10, IH by nia.
  rewrite <- app_assoc. f_equal. cbn [repeat]. symmetry. apply repeat_cons.
Qed.

(** The number of digits of an integer. *)
Lemma str_of_nonneg_length (n E : Z) :
  (0 <= E)%Z -> (10 ^ E <= n < 10 ^ (E + 1))%Z ->
  Z.of_nat (List.length (str_of_nonneg n)) = (E + 1)%Z.
Proof.
  intros HE B. pose proof (Z.pow_pos_nonneg 10 E) as P.
  destruct (str_of_nonneg_spec n) as (A & _ & V & _); [lia|].
  pose proof (digits_value_bound _ A) as Up. rewrite V in Up.
  assert (Lo : (List.length (str_of_nonneg n) <= S (Z.to_nat E))%nat).
  { unfold str_of_nonneg. apply decimal_digits_length.
    rewrite Nat2Z.inj_succ, Z2Nat.id by lia. lia. }
  destruct (Z_lt_le_dec E (Z.of_nat (List.length (str_of_nonneg n)))) as [G | G]; [lia|].
  exfalso.
  assert (Q : (10 ^ Z.of_nat (List.length (str_of_nonneg n)) <= 10 ^ E)%Z)
    by (apply Z.pow_le_mono_r; lia).
  lia.
Qed.

(** What [rstrip] removes. *)
Lemma lstrip_with_split (c : ascii) (s : str) :
  exists t, s = repeat c t ++ lstrip_with (fun a => Ascii.eqb a c) s.
Proof.
  induction s as [|a s (t & IH)]; [exists O; reflexivity|].
  cbn [lstrip_with]. destruct (Ascii.eqb a c) eqn:E.
  - apply Ascii.eqb_eq in E. subst a. exists (S t). cbn [repeat app]. now rewrite <- IH.
  - exists O. reflexivity.
Qed.

Lemma rev_repeat (c : ascii) (t : nat) : rev (repeat c t) = repeat c t.
Proof.
  induction t as [|t IH]; [reflexivity|].
  cbn [repeat rev]. rewrite IH. symmetry. apply repeat_cons.
Qed.

Lemma rstrip_char_split (c : ascii) (s : str) :
  exists t, s = rstrip_char c s ++ repeat c t.
Proof.
  unfold rstrip_char. destruct (lstrip_with_split c (rev s)) as (t & E).
  exists t. rewrite <- (rev_involutive s) at 1. rewrite E at 1.
  now rewrite rev_app_distr, rev_repeat.
Qed.

Lemma rstrip_char_pad (c : ascii) (s : str) (width : nat) :
  (List.length s <= width)%nat ->
  rstrip_char c s ++ repeat c (width - List.length (rstrip_char c s))
  = s ++ repeat c (width - List.length s).
Proof.
  intro H. destruct (rstrip_char_split c s) as (t & E).
  set (r := rstrip_char c s) in *. clearbody r. subst s.
  rewrite length_app, repeat_length in *.
  rewrite <- app_assoc, <- repeat_app. f_equal. f_equal. lia.
Qed.

(** [str] of a whole float below [2^53]. *)
Lemma float_str_whole (n : Z) :
  (0 <= n < 2 ^ 53)%Z ->
  float_str (Fin (inject_Z n)) = str_of_nonneg n ++ list_ascii_of_string ".0".
Proof.
  intro H. destruct (Z.eq_dec n 0) as [-> | NZ]; [reflexivity|].
  assert (Hn : (1 <= n < 2 ^ 53)%Z) by lia.
  cbn [float_str].
  assert (E0 : Qeq_bool (inject_Z n) 0 = false).
  { apply Qeq_bool_false. intro E. change 0 with (inject_Z 0) in E.
    rewrite inject_Z_injective in E. contradiction. }
  assert (S : Qlt_bool (inject_Z n) 0 = false).
  { rewrite Qlt_bool_inject_Z. apply Z.ltb_ge. lia. }
  rewrite E0, S, Qabs_inject_Z, Z.abs_eq by lia.
  unfold shortest_digits.
  destruct (floor_log10_int n Hn) as (BE & BN).
  set (E := floor_log10 (inject_Z n)) in *.
  destruct (shortest_from_int n E 16 Hn 1%Z) as (d & k & -> & Bk & V); [lia | lia|].
  set (j := (E + 1 - k)%Z) in *.
  assert (Hj : (0 <= j)%Z) by (subst j; lia).
  pose proof (Z.pow_pos_nonneg 10 j) as Pj.
  assert (Hd : (1 <= d)%Z) by nia.
  assert (W : str_of_nonneg n = str_of_nonneg d ++ repeat "0"%char (Z.to_nat j)).
  { rewrite <- str_of_nonneg_times_pow by exact Hd. now rewrite Z2Nat.id, V by lia. }
  pose proof (str_of_nonneg_length n E) as Ln.
  rewrite W, length_app, repeat_length, Nat2Z.inj_add, Z2Nat.id in Ln by lia.
  specialize (Ln ltac:(lia) BN).
  set (all := str_of_nonneg d) in *.
  replace (Z.of_nat (List.length all) + E - k + 1)%Z with (E + 1)%Z by lia.
  destruct (rstrip_char_split "0" all) as (t & Et).
  set (digits := rstrip_char "0" all) in *.
  assert (Ld : List.length all = (List.length digits + t)%nat).
  { rewrite Et at 1. now rewrite length_app, repeat_length. }
  unfold repr_digits.
  assert (C1 : ((E + 1 <=? -4)%Z || (16 <? E + 1)%Z) = false).
  { apply Bool.orb_false_iff. split; [apply Z.leb_gt | apply Z.ltb_ge]; lia. }
  assert (C2 : (E + 1 <=? 0)%Z = false) by (apply Z.leb_gt; lia).
  assert (C3 : (Z.of_nat (List.length digits) <=? E + 1)%Z = true) by (apply Z.leb_le; lia).
  rewrite C1, C2, C3. rewrite app_assoc. f_equal.
  rewrite W.
  pose proof (rstrip_char_pad "0" all (Z.to_nat (E + 1))) as Pad.
  fold digits in Pad. rewrite Pad by lia. f_equal. f_equal. lia.
Qed.

(** ** [str.strip] *)

Lemma lstrip_with_nil (ws : ascii -> bool) (s : str) :
  lstrip_with ws s = [] <-> Forall (fun c => ws c = true) s.
Proof.
  induction s as [|c s IH]; cbn [lstrip_with].
  - split; [constructor | reflexivity].
  - destruct (ws c) eqn:E.
    + rewrite IH. split; [now constructor | intro F; now inversion F].
    + split; [discriminate | intro F; inversion F; congruence].
Qed.

Lemma lstrip_with_snoc (ws : ascii -> bool) (s : str) (c : ascii) :
  ws c = false -> lstrip_with ws (s ++ [c]) = lstrip_with ws s ++ [c].
Proof.
  intro H. induction s as [|a s IH]; cbn [lstrip_with app].
  - now rewrite H.
  - destruct (ws a); [exact IH | reflexivity].
Qed.

Lemma lstrip_with_idem (ws : ascii -> bool) (s : str) :
  lstrip_with ws (lstrip_with ws s) = lstrip_with ws s.
Proof.
  destruct (lstrip_with ws s) as [|c t] eqn:E; [reflexivity|].
  apply lstrip_with_head. now apply lstrip_with_first in E.
Qed.

(** What [strip] returns is empty exactly for a blank string. *)
Lemma strip_with_nil (ws : ascii -> bool) (s : str) :
  strip_with ws s = [] <-> Forall (fun c => ws c = true) s.
Proof.
  unfold strip_with. split.
  - intro H.
    assert (R : lstrip_with ws (rev (lstrip_with ws s)) = []).
    { rewrite <- (rev_involutive (lstrip_with ws (rev (lstrip_with ws s)))), H. reflexivity. }
    apply lstrip_with_nil in R. apply Forall_rev in R. rewrite rev_involutive in R.
    apply lstrip_with_nil. destruct (lstrip_with ws s) as [|c t] eqn:E; [reflexivity|].
    apply lstrip_with_first in E. inversion R; congruence.
  - intro F. apply lstrip_with_nil in F. rewrite F. reflexivity.
Qed.

(** What [strip] returns neither starts nor ends with whitespace: stripping
    it again changes nothing. *)
Lemma strip_with_idem (ws : ascii -> bool) (s : str) :
  strip_with ws (strip_with ws s) = strip_with ws s.
Proof.
  unfold strip_with at 2 3.
  destruct (lstrip_with ws s) as [|c t] eqn:E; [reflexivity|].
  pose proof (lstrip_with_first ws s c t E) as Hc.
  change (rev (c :: t)) with (rev t ++ [c]).
  rewrite lstrip_with_snoc by exact Hc.
  rewrite rev_app_distr. cbn [rev app].
  unfold strip_with. rewrite lstrip_with_head by exact Hc.
  change (rev (c :: rev (lstrip_with ws (rev t))))
    with (rev (rev (lstrip_with ws (rev t))) ++ [c]).
  rewrite rev_involutive, lstrip_with_snoc, lstrip_with_idem by exact Hc.
  rewrite rev_app_distr. reflexivity.
Qed.

Lemma truthy_true (s : str) : truthy s = true <-> s <> [].
Proof.
  unfold truthy. rewrite Bool.negb_true_iff. apply str_eqb_false.
Qed.

Lemma truthy_false (s : str) : truthy s = false <-> s = [].
Proof.
  unfold truthy. rewrite Bool.negb_false_iff. apply str_eqb_true.
Qed.

(** ** The API key *)

Lemma resolve_google_api_key_secret (value : str) (getenv : option str) :
  value <> [] -> resolve_google_api_key (Ok (Some value)) getenv = value.
Proof.
  intro N. unfold resolve_google_api_key. cbn [bind except_Exception].
  apply truthy_true in N. now rewrite N.
Qed.

Lemma resolve_google_api_key_env (secrets : result (option str)) (getenv : option str) :
  no_secret secrets ->
  resolve_google_api_key secrets getenv
  = strip (match getenv with Some value => value | None => [] end).
Proof.
  intro NS. unfold resolve_google_api_key.
  set (env_key := strip _).
  assert (E : (if truthy env_key then env_key else []) = env_key).
  { destruct (truthy env_key) eqn:T; [reflexivity|]. apply truthy_false in T. now rewrite T. }
  destruct secrets as [[value |] | e]; cbn [bind except_Exception]; try exact E.
  rewrite (NS value eq_refl). cbn. exact E.
Qed.

(** ** One chat turn *)

Lemma chat_turn_cases (invoke : list lc_message -> result str) (user_text : option str)
    (messages : list message) :
  fst (chat_turn invoke user_text messages) = messages
  \/ (exists text, text <> []
        /\ fst (chat_turn invoke user_text messages)
           = messages ++ [{| role := "user"; content := text |}])
  \/ (exists text ai_text, text <> []
        /\ fst (chat_turn invoke user_text messages)
           = messages ++ [{| role := "user"; content := text |};
                          {| role := "assistant"; content := ai_text |}]).
Proof.
  unfold chat_turn. destruct user_text as [text |]; [|left; reflexivity].
  destruct (truthy text) eqn:T; [|left; reflexivity].
  apply truthy_true in T.
  destruct (invoke _) as [ai_text | e]; cbn [fst].
  - right. right. exists text, ai_text. split; [exact T|].
    rewrite <- app_assoc. reflexivity.
  - right. left. exists text. split; [exact T | reflexivity].
Qed.

Lemma turns_app (earlier later : list message) :
  turns earlier -> turns later -> turns (earlier ++ later).
Proof.
  intros E L. induction L as [| l text L IH N | l text ai_text L IH N].
  - now rewrite app_nil_r.
  - rewrite app_assoc. now constructor.
  - rewrite app_assoc. now constructor.
Qed.

Lemma turns_chat_turn (invoke : list lc_message -> result str) (user_text : option str)
    (messages : list message) :
  exists later, fst (chat_turn invoke user_text messages) = messages ++ later
                /\ turns later.
Proof.
  destruct (chat_turn_cases invoke user_text messages)
    as [E | [(text & N & E) | (text & ai_text & N & E)]]; rewrite E.
  - exists []. split; [now rewrite app_nil_r | constructor].
  - eexists. split; [reflexivity|]. apply (turns_unanswered [] text); [constructor | exact N].
  - eexists. split; [reflexivity|].
    apply (turns_answered [] text ai_text); [constructor | exact N].
Qed.

Lemma turns_roles (tail : list message) :
  turns tail ->
  Forall (fun m => role m = "user"%string \/ role m = "assistant"%string) tail.
Proof.
  induction 1 as [| l text L IH N | l text ai_text L IH N].
  - constructor.
  - apply Forall_app. split; [exact IH|]. constructor; [left; reflexivity | constructor].
  - apply Forall_app. split; [exact IH|].
    constructor; [left; reflexivity|]. constructor; [right; reflexivity | constructor].
Qed.

Lemma ensure_messages_initialized_None (sys_prompt banker_context : str) :
  ensure_messages_initialized sys_prompt banker_context None
  = Some (initial_messages sys_prompt banker_context).
Proof.
  unfold ensure_messages_initialized, initial_messages. cbn [filter].
  destruct (truthy (strip banker_context)), (truthy (strip sys_prompt)); reflexivity.
Qed.

Lemma initial_messages_system (sys_prompt banker_context : str) :
  Forall (fun m => role m = "system"%string /\ content m <> []
                   /\ strip (content m) = content m)
         (initial_messages sys_prompt banker_context).
Proof.
  unfold initial_messages. apply Forall_forall. intros m H.
  apply in_map_iff in H. destruct H as (text & <- & H). cbn [role content].
  apply filter_In in H. destruct H as [H T]. apply truthy_true in T.
  split; [reflexivity|]. split; [exact T|].
  destruct H as [<- | [<- | []]]; apply strip_with_idem.
Qed.

Lemma render_history_app (a b : list message) :
  render_history (a ++ b) = render_history a ++ render_history b.
Proof. unfold render_history. apply flat_map_app. Qed.

Lemma render_history_system (l : list message) :
  Forall (fun m => role m = "system"%string) l -> render_history l = [].
Proof.
  induction 1 as [|m l Hm F IH]; [reflexivity|].
  unfold render_history in *. cbn [flat_map]. rewrite Hm, IH. reflexivity.
Qed.

Lemma render_history_chat (l : list message) :
  Forall (fun m => role m = "user"%string \/ role m = "assistant"%string) l ->
  render_history l = List.map (fun m => (role m, content m)) l.
Proof.
  induction 1 as [|m l Hm F IH]; [reflexivity|].
  unfold render_history in *. cbn [flat_map List.map]. rewrite IH.
  destruct Hm as [-> | ->]; reflexivity.
Qed.

(** ** [rstrip], [in] and [split] *)

Lemma lstrip_with_id (ws : ascii -> bool) (s : str) :
  match s with c :: _ => ws c = false | [] => True end -> lstrip_with ws s = s.
Proof. destruct s as [|c s]; [reflexivity | apply lstrip_with_head]. Qed.

Lemma rstrip_char_snoc_other (c a : ascii) (s : str) :
  a <> c -> rstrip_char c (s ++ [a]) = s ++ [a].
Proof.
  intro N. unfold rstrip_char. rewrite rev_app_distr. cbn [rev app].
  rewrite lstrip_with_head by now apply Ascii.eqb_neq.
  cbn [rev]. now rewrite rev_involutive.
Qed.

Lemma rstrip_char_snoc_same (c : ascii) (s : str) :
  rstrip_char c (s ++ [c]) = rstrip_char c s.
Proof.
  unfold rstrip_char. rewrite rev_app_distr. cbn [rev app lstrip_with].
  now rewrite Ascii.eqb_refl.
Qed.

Lemma rstrip_char_repeat (c : ascii) (s : str) (k : nat) :
  rstrip_char c (s ++ repeat c k) = rstrip_char c s.
Proof.
  induction k as [|k IH]; [now rewrite app_nil_r|].
  cbn [repeat]. rewrite repeat_cons, app_assoc, rstrip_char_snoc_same. exact IH.
Qed.

Lemma contains_true (c : ascii) (s : str) : contains c s = true <-> In c s.
Proof.
  unfold contains. rewrite existsb_exists. split.
  - intros (a & I & E). apply Ascii.eqb_eq in E. now subst a.
  - intro I. exists c. split; [exact I | apply Ascii.eqb_refl].
Qed.

Lemma contains_false (c : ascii) (s : str) : contains c s = false <-> ~ In c s.
Proof.
  rewrite <- contains_true. destruct (contains c s); split; congruence.
Qed.

Lemma split_first_app (sep : ascii) (a b : str) :
  ~ In sep a -> split_first sep (a ++ sep :: b) = (a, b).
Proof.
  induction a as [|c a IH]; intro N; cbn [split_first app].
  - now rewrite Ascii.eqb_refl.
  - assert (E : Ascii.eqb c sep = false).
    { apply Ascii.eqb_neq. intros ->. apply N. left. reflexivity. }
    rewrite E, IH; [reflexivity|]. intro I. apply N. right. exact I.
Qed.

Lemma all_digits_last (ds : str) (c : ascii) :
  all_digits ds -> ds <> [] -> isdecimal c = false ->
  exists body a, ds = body ++ [a] /\ a <> c.
Proof.
  intros A N C. destruct (exists_last N) as (body & a & ->).
  exists body, a. split; [reflexivity|]. intros ->.
  unfold all_digits in A. rewrite Forall_forall in A.
  rewrite A in C by (apply in_or_app; right; left; reflexivity). discriminate.
Qed.

(** [str] of a negative float is a minus sign and [str] of its opposite. *)
Lemma float_str_negative (q : Q) :
  q < 0 -> float_str (Fin q) = "-"%char :: float_str (Fin (- q)).
Proof.
  intro N. cbn [float_str].
  assert (E1 : Qeq_bool q 0 = false) by (apply Qeq_bool_false; lra).
  assert (E2 : Qeq_bool (- q) 0 = false) by (apply Qeq_bool_false; lra).
  assert (L1 : Qlt_bool q 0 = true) by now apply Qlt_bool_iff.
  assert (L2 : Qlt_bool (- q) 0 = false).
  { apply Bool.not_true_is_false. intro H. apply Qlt_bool_iff in H. lra. }
  assert (A : Qabs (- q) = Qabs q).
  { destruct q as [a b]. unfold Qabs, Qopp. cbn [Qnum Qden]. now rewrite Z.abs_opp. }
  rewrite E1, E2, L1, L2, A.
  destruct (shortest_digits (Qabs q)) as [digits decpt]. reflexivity.
Qed.

(** ** The display of decimals *)

Lemma fmt_decimal_trim_unfold (x : pyfloat) :
  fmt_decimal_trim x
  = Ok (if contains "." (float_str x)
        then rstrip_char "." (rstrip_char "0" (float_str x))
        else float_str x).
Proof. reflexivity. Qed.

(** A float whose [str] is a sign, digits and [.0]. *)
Lemma fmt_decimal_trim_whole (x : pyfloat) (sign ds : str) :
  all_digits ds -> ds <> [] ->
  float_str x = sign ++ ds ++ list_ascii_of_string ".0" ->
  fmt_decimal_trim x = Ok (sign ++ ds).
Proof.
  intros A N E. rewrite fmt_decimal_trim_unfold, E.
  assert (C : contains "." (sign ++ ds ++ list_ascii_of_string ".0") = true).
  { apply contains_true. apply in_or_app. right. apply in_or_app. right. left. reflexivity. }
  rewrite C. f_equal.
  destruct (all_digits_last ds "." A N eq_refl) as (body & a & -> & Na).
  replace (sign ++ (body ++ [a]) ++ list_ascii_of_string ".0")
    with ((((sign ++ body) ++ [a]) ++ ["."%char]) ++ ["0"%char])
    by (rewrite <- !app_assoc; reflexivity).
  rewrite rstrip_char_snoc_same, rstrip_char_snoc_other by discriminate.
  rewrite rstrip_char_snoc_same, rstrip_char_snoc_other by exact Na.
  now rewrite <- app_assoc.
Qed.

Lemma float_str_whole_signed (z : Z) :
  (Z.abs z < 2 ^ 53)%Z ->
  float_str (Fin (inject_Z z))
  = (if (z <? 0)%Z then ["-"%char] else []) ++ str_of_nonneg (Z.abs z)
    ++ list_ascii_of_string ".0".
Proof.
  intro B. destruct (z <? 0)%Z eqn:S.
  - apply Z.ltb_lt in S. rewrite float_str_negative.
    + change (- inject_Z z) with (inject_Z (- z)).
      rewrite float_str_whole, Z.abs_neq by lia. reflexivity.
    + change 0 with (inject_Z 0). now rewrite <- Zlt_Qlt.
  - apply Z.ltb_ge in S. rewrite float_str_whole, Z.abs_eq by lia. reflexivity.
Qed.

Lemma fmt_decimal_trim_int (z : Z) :
  (Z.abs z < 2 ^ 53)%Z ->
  fmt_decimal_trim (Fin (inject_Z z))
  = Ok ((if (z <? 0)%Z then ["-"%char] else []) ++ str_of_nonneg (Z.abs z)).
Proof.
  intro B. destruct (str_of_nonneg_spec (Z.abs z)) as (A & N & _); [lia|].
  apply fmt_decimal_trim_whole; [exact A | exact N | now apply float_str_whole_signed].
Qed.

Lemma format_decimal_with_commas_whole (z : Z) :
  (Z.abs z < 2 ^ 53)%Z ->
  format_decimal_with_commas (Fin (inject_Z z)) = Ok (format_int_commas z).
Proof.
  intro B. destruct (str_of_nonneg_spec (Z.abs z)) as (A & N & V & _); [lia|].
  pose proof (str_of_nonneg_short (Z.abs z)) as L.
  unfold format_decimal_with_commas. rewrite fmt_decimal_trim_int by exact B.
  cbn [bind]. set (ds := str_of_nonneg (Z.abs z)) in *.
  assert (P : py_int ((if (z <? 0)%Z then ["-"%char] else []) ++ ds) = Ok z).
  { destruct (z <? 0)%Z eqn:S; cbn [app].
    - apply Z.ltb_lt in S. rewrite py_int_negative by (try assumption; apply L; lia).
      rewrite V. f_equal. lia.
    - apply Z.ltb_ge in S. rewrite py_int_unsigned by (try assumption; apply L; lia).
      rewrite V. f_equal. lia. }
  assert (C : contains "." ((if (z <? 0)%Z then ["-"%char] else []) ++ ds) = false).
  { apply contains_false. intro I. apply in_app_or in I. destruct I as [I | I].
    - destruct (z <? 0)%Z; [|destruct I]. destruct I as [I | []]. discriminate I.
    - revert I. now apply all_digits_absent. }
  rewrite C, P. reflexivity.
Qed.

(** A float whose [str] is a sign, digits, a point and digits that do not
    end in a zero. *)
Lemma fmt_decimal_trim_point (x : pyfloat) (head fp : str) (a : ascii) :
  isdecimal a = true -> a <> "0"%char ->
  float_str x = head ++ "."%char :: fp ++ [a] ->
  fmt_decimal_trim x = Ok (head ++ "."%char :: fp ++ [a]).
Proof.
  intros D Hz E. rewrite fmt_decimal_trim_unfold, E.
  assert (C : contains "." (head ++ "."%char :: fp ++ [a]) = true).
  { apply contains_true. apply in_or_app. right. left. reflexivity. }
  rewrite C. f_equal.
  change (head ++ "."%char :: fp ++ [a]) with (head ++ ("."%char :: fp) ++ [a]).
  rewrite app_assoc, rstrip_char_snoc_other by exact Hz.
  apply rstrip_char_snoc_other. intros ->. discriminate D.
Qed.

Lemma format_decimal_with_commas_point (x : pyfloat) (negative : bool) (n : Z)
    (fp : str) (a : ascii) :
  (0 <= n < 2 ^ 53)%Z -> isdecimal a = true -> a <> "0"%char ->
  float_str x
  = (if negative then ["-"%char] else []) ++ str_of_nonneg n ++ "."%char :: fp ++ [a] ->
  format_decimal_with_commas x
  = Ok (format_int_commas (if negative then - n else n) ++ "."%char :: fp ++ [a]).
Proof.
  intros B D Hz E. destruct (str_of_nonneg_spec n) as (A & N & V & _); [lia|].
  pose proof (str_of_nonneg_short n B) as L.
  set (ds := str_of_nonneg n) in *.
  set (sign := if negative then ["-"%char] else []) in *.
  rewrite app_assoc in E.
  unfold format_decimal_with_commas.
  rewrite (fmt_decimal_trim_point x (sign ++ ds) fp a D Hz E). cbn [bind].
  assert (C : contains "." ((sign ++ ds) ++ "."%char :: fp ++ [a]) = true).
  { apply contains_true. apply in_or_app. right. left. reflexivity. }
  rewrite C, split_first_app.
  - assert (P : py_int (sign ++ ds) = Ok (if negative then - n else n)%Z).
    { subst sign. destruct negative; cbn [app].
      - rewrite py_int_negative by assumption. now rewrite V.
      - rewrite py_int_unsigned by assumption. now rewrite V. }
    rewrite P. reflexivity.
  - intro I. apply in_app_or in I. destruct I as [I | I].
    + subst sign. destruct negative; [|destruct I].
      destruct I as [I | []]. discriminate I.
    + revert I. now apply all_digits_absent.
Qed.

(** ** [str] of a float without a point *)

Lemma contains_app (c : ascii) (s t : str) :
  contains c (s ++ t) = contains c s || contains c t.
Proof. unfold contains. apply existsb_app. Qed.

Lemma repr_digits_shape (digits : str) (decpt : Z) :
  contains "." (repr_digits digits decpt) = true
  \/ In "e"%char (repr_digits digits decpt).
Proof.
  unfold repr_digits.
  destruct ((decpt <=? -4)%Z || (16 <? decpt)%Z).
  - right. apply in_or_app. right. left. reflexivity.
  - left. destruct (decpt <=? 0)%Z; [reflexivity|].
    destruct (Z.of_nat (List.length digits) <=? decpt)%Z.
    + rewrite !contains_app. cbn. now rewrite !Bool.orb_true_r.
    + rewrite contains_app. cbn. now rewrite Bool.orb_true_r.
Qed.

Lemma py_int_letter (s : str) (c : ascii) :
  In c s -> ~ int_char c -> exists e, py_int s = Raise e.
Proof.
  intros I N. destruct (py_int s) as [z | e] eqn:P; [|eauto].
  exfalso. apply N. exact (py_int_Ok_chars s z P c I).
Qed.

Lemma e_not_int_char : ~ int_char "e".
Proof. unfold int_char. intros [H | [H | [H | [H | H]]]]; discriminate H. Qed.

Lemma float_str_no_point (x : pyfloat) :
  contains "." (float_str x) = false ->
  (exists e, py_int (float_str x) = Raise e)
  /\ (match x with Fin _ => In "e"%char (float_str x) | _ => True end).
Proof.
  destruct x as [q | [|] |]; cbn [float_str]; intro C.
  - destruct (Qeq_bool q 0); [discriminate C|].
    destruct (shortest_digits (Qabs q)) as [digits decpt].
    assert (I : In "e"%char (if Qlt_bool q 0 then "-"%char :: repr_digits digits decpt
                             else repr_digits digits decpt)).
    { destruct (repr_digits_shape digits decpt) as [P | I].
      - destruct (Qlt_bool q 0);
          change (contains "." (repr_digits digits decpt) = false) in C;
          rewrite P in C; discriminate C.
      - destruct (Qlt_bool q 0); [right|]; exact I. }
    split; [|exact I]. eapply py_int_letter; [exact I | exact e_not_int_char].
  - split; [eexists; reflexivity | exact I].
  - split; [eexists; reflexivity | exact I].
  - split; [eexists; reflexivity | exact I].
Qed.

(** ** [parse_decimal] on digits *)

Lemma py_float_digits (ds : str) :
  all_digits ds -> ds <> [] -> py_float ds = Ok (binary64 (inject_Z (digits_value ds))).
Proof.
  intros A N. unfold py_float.
  rewrite strip_with_id by now apply all_digits_no_literal_space.
  rewrite strip_underscores_none by (apply all_digits_absent; [assumption | reflexivity]).
  rewrite split_sign_unsigned.
  2:{ destruct ds as [|a ds']; [exact I|]. inversion A; subst. now apply digit_not_sign. }
  assert (D : decimal_literal ds = Some (inject_Z (digits_value ds))).
  { unfold decimal_literal. rewrite span_digits_all by assumption.
    cbv iota beta. rewrite app_nil_r.
    destruct ds as [|a ds']; [contradiction|].
    cbn [exponent List.length Z.of_nat]. f_equal.
    unfold Qmult. cbn [Qnum Qden inject_Z Qpower Z.sub Z.opp Z.add].
    now rewrite Z.mul_1_r. }
  now rewrite D.
Qed.

Lemma parse_decimal_digits (ds : str) :
  all_digits ds -> ds <> [] ->
  parse_decimal (string_of_list_ascii ds) = Ok (binary64 (inject_Z (digits_value ds))).
Proof.
  intros A N. rewrite parse_decimal_fallback. unfold decimal_text.
  rewrite list_ascii_of_string_of_list_ascii.
  rewrite strip_no_space by now apply all_digits_no_space.
  rewrite (count_digits ds ",") by (assumption || reflexivity).
  cbn [Nat.eqb andb].
  rewrite replace_absent by (apply all_digits_absent; [assumption | reflexivity]).
  now rewrite py_float_digits.
Qed.

Lemma float_le_not_lt (x y : pyfloat) : float_le x y = true -> float_lt y x = false.
Proof.
  destruct x as [p | [|] |], y as [q | [|] |]; cbn [float_le float_lt negb andb orb];
    try congruence.
  intro H. unfold Qlt_bool. now rewrite H.
Qed.

(** * The claims about the engine *)






(** ** Round trip and monotonicity, in exact arithmetic *)










(** ** Round trip and monotonicity, on binary64 floats

    The binary64 nearest to [1e-14] is [0x1.6849b86a12b9bp-47]; as an annual
    rate in percent it gives a monthly rate of about [8.3e-18], which is not
    zero but is absorbed by [1 + r]: the sum rounds to 1, the power is 1,
    the divisor [1 - 1] is zero, and the guard of [monthly_payment] turns
    the [ZeroDivisionError] into 0. *)

Lemma tiny_rate_is_absorbed :
  let r := ((0x1.6849b86a12b9bp-47 / 100) / 12)%float in
  (r =? 0)%float = false /\ (0 <? r)%float = true /\ (1 + r =? 1)%float = true.
Proof. vm_compute. repeat split. Qed.

(** Whatever the principal and the term: a rate that is not zero and that
    [1 + r] absorbs pays nothing. *)
Lemma absorbed_rate_pays_nothing (principal annual_rate_pct w : float) (years : Z) :
  (principal <=? 0)%float = false -> (years <=? 0)%Z = false ->
  (annual_rate_pct / 100 / 12 =? 0)%float = false ->
  (1 + annual_rate_pct / 100 / 12)%float = 1%float ->
  Binary64.float_of_int (- (years * 12)) = Ok w ->
  Binary64.monthly_payment principal annual_rate_pct years = Some (Ok 0%float).
Proof.
  intros HP Hy Hr Habs Hw. unfold Binary64.monthly_payment.
  rewrite HP, Hy, Hr. cbn [orb]. unfold Binary64.annuity_payment.
  rewrite Hw, Habs.
  assert (P : Binary64.pow 1 w = Some (Ok 1%float)).
  { unfold Binary64.pow. destruct (w =? 0)%float; [reflexivity|].
    change (is_nan 1) with false. cbv iota.
    destruct (is_nan w); reflexivity. }
  rewrite P. reflexivity.
Qed.



(** * The claims about the parsers *)

(** C8.  [parse_decimal] strips the whitespace around the text and the
    spaces inside it; then, if what is left holds exactly one comma and no
    point, the comma becomes the decimal point, and otherwise every comma is
    dropped and a point is the decimal point; the result is what [float()]
    reads, and 0 where it reads nothing.  The commas and points counted are
    those of the text.  So digits, one comma, digits is the decimal number
    they write, and with a point in the text the commas before it only group
    digits.  ["10,5"] and ["10.5"] give 10.5, and ["12,345.6"] gives the float
    12345.6, the binary64 nearest to 123456/10. *)
Theorem parse_decimal_separators (text : string) (ip fp g : str) :
  let s := replace " " [] (strip (list_ascii_of_string text)) in
  (count "," s = 1%nat /\ count "." s = 0%nat ->
   parse_decimal text
   = except_Exception (py_float (replace "," ["."%char] s)) (Ok (Fin 0)))
  /\ (~ (count "," s = 1%nat /\ count "." s = 0%nat) ->
      parse_decimal text = except_Exception (py_float (replace "," [] s)) (Ok (Fin 0)))
  /\ count "," s = count "," (list_ascii_of_string text)
  /\ count "." s = count "." (list_ascii_of_string text)
  /\ (all_digits ip /\ all_digits fp /\ ip ++ fp <> [] ->
      parse_decimal (string_of_list_ascii (ip ++ ","%char :: fp))
      = Ok (binary64 (decimal_value ip fp)))
  /\ (Forall (fun c => isdecimal c = true \/ c = ","%char) g /\ all_digits fp
      /\ filter isdecimal g ++ fp <> [] ->
      parse_decimal (string_of_list_ascii (g ++ "."%char :: fp))
      = Ok (binary64 (decimal_value (filter isdecimal g) fp)))
  /\ parse_decimal "10,5" = Ok (Fin (21 # 2))
  /\ parse_decimal "12,345.6" = Ok (binary64 (123456 # 10))
  /\ parse_decimal "10.5" = Ok (Fin (21 # 2)).
Proof.
  intro s.
  split.
  { intros [C1 C0]. rewrite parse_decimal_fallback. unfold decimal_text. fold s.
    now rewrite C1, C0. }
  split.
  { intro N. rewrite parse_decimal_fallback. unfold decimal_text. fold s.
    destruct ((count "," s =? 1)%nat && (count "." s =? 0)%nat) eqn:E; [|reflexivity].
    apply andb_true_iff in E. destruct E as [E1 E0].
    apply Nat.eqb_eq in E1. apply Nat.eqb_eq in E0. tauto. }
  split; [apply count_cleaned; reflexivity|].
  split; [apply count_cleaned; reflexivity|].
  split; [intros (Fi & Ff & NE); now apply parse_decimal_comma|].
  split; [intros (Fg & Ff & NE); now apply parse_decimal_point|].
  repeat split; vm_compute; reflexivity.
Qed.


(** C10, as the code has it.  For digits [d] with grouping separators among
    them (at most [int_max_str_digits] digits), [parse_money] of a minus sign
    and [d] is [float(-n)], [n] the integer the digits write: the integer
    itself when it is below [2^53], otherwise the binary64 nearest to it, and
    0 when that is beyond the range of the floats.  The lone ["-"] gives 0. *)
Theorem parse_money_negative (d : string) :
  Forall (fun c => isdecimal c = true \/ c = ","%char \/ c = "."%char)
         (list_ascii_of_string d) ->
  Exists (fun c => isdecimal c = true) (list_ascii_of_string d) ->
  (List.length (filter isdecimal (list_ascii_of_string d)) <= int_max_str_digits)%nat ->
  let n := digits_value (filter isdecimal (list_ascii_of_string d)) in
  parse_money (String "-" d) = except_Exception (float_of_int (- n)) (Ok (Fin 0))
  /\ ((n < 2 ^ 53)%Z -> parse_money (String "-" d) = Ok (Fin (inject_Z (- n))))
  /\ parse_money "-" = Ok (Fin 0).
Proof.
  intros F E L n.
  pose proof (parse_money_negative_value d F E L) as V. fold n in V.
  split; [exact V|]. split; [|reflexivity].
  intro B. rewrite V.
  pose proof (digits_value_nonneg _ (filter_digits_all (list_ascii_of_string d))) as P.
  fold n in P. rewrite float_of_int_small by lia. reflexivity.
Qed.

Lemma parse_money_negative_witness :
  let n := digits_value (filter isdecimal (list_ascii_of_string "5,000")) in
  parse_money "-5,000" = except_Exception (float_of_int (- n)) (Ok (Fin 0))
  /\ ((n < 2 ^ 53)%Z -> parse_money "-5,000" = Ok (Fin (inject_Z (- n))))
  /\ parse_money "-" = Ok (Fin 0).
Proof.
  apply (parse_money_negative "5,000").
  - repeat (constructor; [first [left; reflexivity | right; left; reflexivity] |]).
    constructor.
  - constructor. reflexivity.
  - unfold int_max_str_digits. simpl. lia.
Defined.

(** C10, as stated, fails beyond the integers a float holds: the minus sign
    and the digits of [2^53 + 1] give [-2^53], and the minus sign, a 1 and 309
    zeros give 0. *)
Lemma parse_money_negative_inexact :
  digits_value (list_ascii_of_string "9007199254740993") = 9007199254740993%Z
  /\ parse_money "-9007199254740993" = Ok (Fin (- 9007199254740992))
  /\ digits_value ("1"%char :: repeat "0"%char 309) = (10 ^ 309)%Z
  /\ parse_money (String "-" (String "1" (string_of_list_ascii (repeat "0"%char 309))))
     = Ok (Fin 0).
Proof. repeat split; vm_compute; reflexivity. Qed.

(** * Examples *)

(** The zero-rate payment is the straight-line division. *)
Example monthly_payment_zero_rate :
  exists v, monthly_payment 1200000 0 1 = Ok v /\ v == 100000.
Proof. eexists. split; reflexivity. Qed.

(** No principal or no term: no payment. *)
Example monthly_payment_degenerate (a : Q) (years : Z) (principal : Q) :
  monthly_payment 0 a years = Ok 0 /\ monthly_payment principal a 0 = Ok 0.
Proof.
  split; [reflexivity|]. unfold monthly_payment. now rewrite orb_true_r.
Qed.

(** The pathological rates: [-1200] percent a year is [r = -1], [-2400] is
    [r = -2]. *)
Example pathological_rates :
  monthly_rate (- (1200)) == - (1) /\ monthly_rate (- (2400)) == - (2)
  /\ monthly_payment 100 (- (1200)) 1 = Ok 0
  /\ monthly_payment 100 (- (2400)) 1 = Ok 0
  /\ max_principal_from_dsr 100 0 1 (- (1200)) 1 = Ok 0.
Proof. repeat split. Qed.

(** The same on binary64 floats. *)
Example pathological_rates_binary64 :
  Binary64.monthly_payment 100 (-1200) 1 = Some (Ok 0%float)
  /\ Binary64.max_principal_from_dsr 100 0 1 (-1200) 1 = Some (Ok 0%float).
Proof. split; vm_compute; reflexivity. Qed.

(** The scenario of the specification: a loan need of 600,000,000, a
    loan-to-value of 0.8 within the limit, a payment of 6,632,393 and a
    fraction, a debt-service ratio of 120.58 percent, above the limit. *)
Example example_scenario :
  exists res,
    evaluate example_profile example_thresholds = Ok res
    /\ loan_need res == 600000000
    /\ loan_to_value res == 8 # 10
    /\ ltv_compliant res = true
    /\ Qfloor (estimated_monthly_payment res) = 6632393%Z
    /\ Qfloor (dsr_used res * 10000) = 12058%Z
    /\ dsr_compliant res = false.
Proof.
  eexists. split; [vm_compute; reflexivity|].
  repeat split; vm_compute; reflexivity.
Qed.

(** What [float()] accepts besides plain decimals reaches the caller:
    exponents and underscores as numbers, [inf] and [nan] as themselves. *)
Remark parse_decimal_special :
  parse_decimal "1e3" = Ok (Fin 1000)
  /\ parse_decimal "1_000" = Ok (Fin 1000)
  /\ parse_decimal "nan" = Ok NaN
  /\ parse_decimal "inf" = Ok (Inf false)
  /\ parse_decimal "-Infinity" = Ok (Inf true)
  /\ parse_decimal "1e400" = Ok (Inf false).
Proof. repeat split; vm_compute; reflexivity. Qed.

(** The examples of the parsers' docstrings. *)
Example parse_money_docstring :
  parse_money "5,000,000" = Ok (Fin 5000000)
  /\ parse_money "5.000.000" = Ok (Fin 5000000)
  /\ parse_money "5000000" = Ok (Fin 5000000)
  /\ parse_money "  5 000 000  " = Ok (Fin 5000000)
  /\ parse_money "-5,000" = Ok (Fin (- 5000)).
Proof. repeat split; vm_compute; reflexivity. Qed.

(** The rounding of [binary64] agrees with the primitive floats'. *)
Example binary64_agrees :
  binary64 (inject_Z 9007199254740993) = Fin (inject_Z 9007199254740992)
  /\ Prim2SF (SF2Prim (binary_normalize prec emax 9007199254740993 0 false))
     = S754_finite false 4503599627370496 1
  /\ binary64 (inject_Z (10 ^ 309)) = Inf false
  /\ SF2Prim (binary_normalize prec emax (10 ^ 309) 0 false) = infinity.
Proof. repeat split; vm_compute; reflexivity. Qed.

(** * The claims at concrete inputs

    Each lemma applies one of the theorems above at inputs that meet the
    conditions of its cases. *)







Lemma parse_decimal_separators_witness :
  parse_decimal "10,5"
  = except_Exception (py_float (list_ascii_of_string "10.5")) (Ok (Fin 0))
  /\ parse_decimal "12,345.6"
     = except_Exception (py_float (list_ascii_of_string "12345.6")) (Ok (Fin 0))
  /\ parse_decimal "10,5"
     = Ok (binary64 (decimal_value (list_ascii_of_string "10") (list_ascii_of_string "5")))
  /\ parse_decimal "12,345.6"
     = Ok (binary64 (decimal_value (list_ascii_of_string "12345")
                                   (list_ascii_of_string "6"))).
Proof.
  split; [|split; [|split]].
  - destruct (parse_decimal_separators "10,5" [] [] []) as (H & _).
    apply H. split; reflexivity.
  - destruct (parse_decimal_separators "12,345.6" [] [] []) as (_ & H & _).
    apply H. intros [_ C]. vm_compute in C. discriminate C.
  - destruct (parse_decimal_separators "" (list_ascii_of_string "10")
                (list_ascii_of_string "5") []) as (_ & _ & _ & _ & H & _).
    apply H. split; [|split]; [repeat constructor | repeat constructor | discriminate].
  - destruct (parse_decimal_separators "" [] (list_ascii_of_string "6")
                (list_ascii_of_string "12,345")) as (_ & _ & _ & _ & _ & H & _).
    apply H. split; [|split]; [|repeat constructor | discriminate].
    repeat (constructor; [first [left; reflexivity | right; reflexivity] |]).
    constructor.
Defined.


(** * Beyond the specification: the display formatters and the widgets *)

(** X1 (parse_money, lines 96-117).  Whatever the text, [parse_money]
    returns a finite whole number: never an infinity, never a NaN, never a
    fraction. *)
Theorem parse_money_is_whole (text : string) :
  exists n : Z, parse_money text = Ok (Fin (inject_Z n)).
Proof. apply parse_money_whole. Qed.

(** X2 (fmt_int, lines 60-65).  A float that rounds to an int below [2^53]
    in size is shown as that int, ties rounded to even, its digits in groups
    of three: [fmt_int] takes no exception path, and the text without its
    commas is the int as [int()] reads it. *)
Theorem fmt_int_shows_rounded (q : Q) :
  (Z.abs (round_half_even q) < 2 ^ 53)%Z ->
  fmt_int (Fin q) = Ok (format_int_commas (round_half_even q))
  /\ py_int (replace "," [] (format_int_commas (round_half_even q)))
     = Ok (round_half_even q).
Proof.
  intro B. split; [now apply fmt_int_small | now apply py_int_format_int_commas].
Qed.

Lemma fmt_int_shows_rounded_witness :
  fmt_int (Fin (2469 # 2)) = Ok (format_int_commas (round_half_even (2469 # 2)))
  /\ py_int (replace "," [] (format_int_commas (round_half_even (2469 # 2))))
     = Ok (round_half_even (2469 # 2)).
Proof. apply (fmt_int_shows_rounded (2469 # 2)). vm_compute. reflexivity. Defined.

(** X3 (rupiah, lines 53-58, and fmt_int, lines 60-65).  For every float,
    an infinity and a NaN included, neither formatter raises, and [rupiah]
    gives [Rp] followed by what [fmt_int] gives. *)
Theorem rupiah_is_Rp_fmt_int (x : pyfloat) :
  exists s, fmt_int x = Ok s /\ rupiah x = Ok (list_ascii_of_string "Rp" ++ s).
Proof.
  unfold fmt_int, rupiah. destruct (py_round x) as [n | e]; cbn [bind except_Exception].
  - destruct (format_int_f0 n) as [s | e]; cbn [bind except_Exception]; eauto.
  - eauto.
Qed.

(** X4 (fmt_int, lines 60-65, then parse_money, lines 96-117).  What
    [fmt_int] shows for a float reads back through [parse_money] as that
    float rounded to a whole number, below [2^53] in size: for a whole
    amount the round trip is exact. *)
Theorem parse_money_reads_fmt_int (q : Q) :
  (Z.abs (round_half_even q) < 2 ^ 53)%Z ->
  exists s, fmt_int (Fin q) = Ok s
            /\ parse_money (string_of_list_ascii s)
               = Ok (Fin (inject_Z (round_half_even q))).
Proof.
  intro B. exists (format_int_commas (round_half_even q)).
  split; [now apply fmt_int_small | now apply parse_money_format_int_commas].
Qed.

Lemma parse_money_reads_fmt_int_witness :
  exists s, fmt_int (Fin (- 17000001 # 2)) = Ok s
            /\ parse_money (string_of_list_ascii s)
               = Ok (Fin (inject_Z (round_half_even (- 17000001 # 2)))).
Proof. apply (parse_money_reads_fmt_int (- 17000001 # 2)). vm_compute. reflexivity. Defined.

(** X5 (money_text_input, lines 143-156).  Whatever is stored and whatever
    the user types, the widget does not raise, returns a finite whole number
    and stores it under its key; no other key of the session changes. *)
Theorem money_text_input_stores_whole
    (text_input : string -> str -> string -> string)
    (label key : string) (session : session_state) :
  exists (n : Z) (session' : session_state),
    money_text_input text_input label key session = Ok (Fin (inject_Z n), session')
    /\ session' key = Some (Fin (inject_Z n))
    /\ forall k, k <> key -> session' k = session k.
Proof.
  unfold money_text_input.
  destruct (fmt_int_total (session_get session key (Fin 0))) as [s ->]. cbn [bind].
  destruct (parse_money_whole (text_input label s (key ++ "__text")%string)) as [n ->].
  cbn [bind]. exists n, (session_set session key (Fin (inject_Z n))).
  split; [reflexivity|]. split; [apply session_set_same|].
  intros k N. now apply session_set_other.
Qed.

(** X6 (money_text_input, lines 143-156).  A whole amount below [2^53] in
    size that is stored under the key, shown, and left as shown by the user,
    is parsed back to itself: the run returns it and leaves the session as it
    was. *)
Theorem money_text_input_unchanged
    (text_input : string -> str -> string -> string)
    (label key : string) (session : session_state) (n : Z) :
  (Z.abs n < 2 ^ 53)%Z ->
  session key = Some (Fin (inject_Z n)) ->
  (forall shown, text_input label shown (key ++ "__text")%string
                 = string_of_list_ascii shown) ->
  exists session' : session_state,
    money_text_input text_input label key session = Ok (Fin (inject_Z n), session')
    /\ forall k, session' k = session k.
Proof.
  intros B S U. unfold money_text_input, session_get. rewrite S.
  assert (R : round_half_even (inject_Z n) = n) by now apply round_half_even_int.
  rewrite fmt_int_small by (rewrite R; exact B). rewrite R. cbn [bind].
  rewrite U, parse_money_format_int_commas by exact B. cbn [bind].
  eexists. split; [reflexivity|].
  intro k. unfold session_set. destruct (String.eqb k key) eqn:E; [|reflexivity].
  apply String.eqb_eq in E. subst k. now rewrite S.
Qed.

Lemma money_text_input_unchanged_witness :
  exists session' : session_state,
    money_text_input (fun _ shown _ => string_of_list_ascii shown)
      "Gaji Bersih Bulanan (IDR)" "gaji_bersih"
      (fun k => if String.eqb k "gaji_bersih" then Some (Fin (inject_Z 8500000)) else None)
    = Ok (Fin (inject_Z 8500000), session')
    /\ forall k, session' k
                 = (fun k => if String.eqb k "gaji_bersih"
                             then Some (Fin (inject_Z 8500000)) else None) k.
Proof.
  apply (money_text_input_unchanged (fun _ shown _ => string_of_list_ascii shown)
           "Gaji Bersih Bulanan (IDR)" "gaji_bersih"
           (fun k => if String.eqb k "gaji_bersih" then Some (Fin (inject_Z 8500000)) else None)
           8500000).
  - vm_compute. reflexivity.
  - reflexivity.
  - intro shown. reflexivity.
Defined.

(** X7 (percent_text_input, lines 158-174).  With bounds [min_val <=
    max_val], whatever is stored and whatever the user types, the widget
    does not raise and stores what it returns; that value is within the
    bounds, or it is a NaN, and then the typed text parsed to a NaN. *)
Theorem percent_text_input_range
    (text_input : string -> str -> string -> string)
    (label key : string) (min_val max_val : pyfloat) (session : session_state) :
  float_le min_val max_val = true ->
  exists (shown : str) (v : pyfloat),
    format_decimal_with_commas (session_get session key (Fin 0)) = Ok shown
    /\ percent_text_input text_input label key min_val max_val session
       = Ok (v, session_set session key v)
    /\ ((float_le min_val v = true /\ float_le v max_val = true)
        \/ (v = NaN
            /\ parse_decimal (text_input label shown (key ++ "__text")%string) = Ok NaN)).
Proof.
  intro B. unfold percent_text_input.
  destruct (format_decimal_with_commas_total (session_get session key (Fin 0))) as [s Hs].
  rewrite Hs. cbn [bind].
  destruct (parse_decimal_total (text_input label s (key ++ "__text")%string)) as [p Hp].
  rewrite Hp. cbn [bind].
  eexists s, _. split; [reflexivity|]. split; [reflexivity|].
  pose proof (clamp_range p min_val max_val B) as C. cbv zeta in C.
  destruct C as [R | [Ep Ev]]; [left; exact R|].
  right. split; [exact Ev | rewrite <- Ep; exact Hp].
Qed.

Lemma percent_text_input_range_witness :
  exists (shown : str) (v : pyfloat),
    format_decimal_with_commas (session_get (fun _ => None) "bunga_tahunan" (Fin 0))
    = Ok shown
    /\ percent_text_input (fun _ _ _ => "31,5"%string) "Bunga Tahunan (%)" "bunga_tahunan"
         (Fin 0) (Fin 25) (fun _ => None)
       = Ok (v, session_set (fun _ => None) "bunga_tahunan" v)
    /\ ((float_le (Fin 0) v = true /\ float_le v (Fin 25) = true)
        \/ (v = NaN
            /\ parse_decimal ((fun _ _ _ => "31,5"%string) "Bunga Tahunan (%)"%string shown
                                ("bunga_tahunan" ++ "__text")%string) = Ok NaN)).
Proof.
  apply (percent_text_input_range (fun _ _ _ => "31,5"%string) "Bunga Tahunan (%)"
           "bunga_tahunan" (Fin 0) (Fin 25) (fun _ => None)).
  reflexivity.
Defined.

(** X8 (percent_text_input, lines 158-174).  The clamp does not hold a NaN:
    when the typed text parses to a NaN, as the text [nan] does, the widget
    returns and stores a NaN whatever the bounds are. *)
Theorem percent_text_input_keeps_nan
    (text_input : string -> str -> string -> string)
    (label key : string) (min_val max_val : pyfloat) (session : session_state) :
  (forall shown, parse_decimal (text_input label shown (key ++ "__text")%string) = Ok NaN) ->
  percent_text_input text_input label key min_val max_val session
  = Ok (NaN, session_set session key NaN).
Proof.
  intro H. unfold percent_text_input.
  destruct (format_decimal_with_commas_total (session_get session key (Fin 0))) as [s ->].
  cbn [bind]. rewrite H. cbn [bind].
  pose proof (clamp_nan min_val max_val) as C. cbv zeta in C. rewrite C. reflexivity.
Qed.

Lemma percent_text_input_keeps_nan_witness :
  percent_text_input (fun _ _ _ => " NaN "%string) "Bunga Tahunan (%)" "bunga_tahunan"
    (Fin 0) (Fin 25) (fun _ => Some (Fin 10))
  = Ok (NaN, session_set (fun _ => Some (Fin 10)) "bunga_tahunan" NaN).
Proof.
  apply (percent_text_input_keeps_nan (fun _ _ _ => " NaN "%string) "Bunga Tahunan (%)"
           "bunga_tahunan" (Fin 0) (Fin 25) (fun _ => Some (Fin 10))).
  intro shown. vm_compute. reflexivity.
Defined.

(** X24 (percent_text_input, lines 158-174, with
    format_decimal_with_commas and parse_decimal).  A whole percentage
    below [1000] that is stored within the bounds, shown, and left as shown
    by the user, is parsed back to itself: the run returns it and leaves the
    session as it was. *)
Theorem percent_text_input_unchanged
    (text_input : string -> str -> string -> string)
    (label key : string) (min_val max_val : pyfloat) (session : session_state) (n : Z) :
  (0 <= n < 1000)%Z ->
  session key = Some (Fin (inject_Z n)) ->
  float_le min_val (Fin (inject_Z n)) = true ->
  float_le (Fin (inject_Z n)) max_val = true ->
  (forall shown, text_input label shown (key ++ "__text")%string
                 = string_of_list_ascii shown) ->
  exists session' : session_state,
    percent_text_input text_input label key min_val max_val session
    = Ok (Fin (inject_Z n), session')
    /\ forall k, session' k = session k.
Proof.
  intros B S Lo Hi U. unfold percent_text_input, session_get. rewrite S.
  assert (P53 : (1000 < 2 ^ 53)%Z) by reflexivity.
  rewrite format_decimal_with_commas_whole by lia. cbn [bind]. rewrite U.
  destruct (str_of_nonneg_spec n) as (A & N & V & _); [lia|].
  assert (T : format_int_commas n = str_of_nonneg n).
  { unfold format_int_commas.
    assert (Sg : (n <? 0)%Z = false) by (apply Z.ltb_ge; lia). rewrite Sg.
    apply thousands_short. unfold str_of_nonneg. apply (decimal_digits_length _ n 2).
    change (10 ^ Z.of_nat 3)%Z with 1000%Z. lia. }
  rewrite T, parse_decimal_digits, V, binary64_small_int by (assumption || lia).
  cbn [bind].
  rewrite (float_le_not_lt _ _ Lo), (float_le_not_lt _ _ Hi).
  eexists. split; [reflexivity|].
  intro k. unfold session_set. destruct (String.eqb k key) eqn:E; [|reflexivity].
  apply String.eqb_eq in E. subst k. now rewrite S.
Qed.

Lemma percent_text_input_unchanged_witness :
  exists session' : session_state,
    percent_text_input (fun _ shown _ => string_of_list_ascii shown)
      "Bunga Tahunan (%)" "bunga_tahunan" (Fin 0) (Fin 25)
      (fun k => if String.eqb k "bunga_tahunan" then Some (Fin (inject_Z 10)) else None)
    = Ok (Fin (inject_Z 10), session')
    /\ forall k, session' k
                 = (fun k => if String.eqb k "bunga_tahunan"
                             then Some (Fin (inject_Z 10)) else None) k.
Proof.
  apply (percent_text_input_unchanged (fun _ shown _ => string_of_list_ascii shown)
           "Bunga Tahunan (%)" "bunga_tahunan" (Fin 0) (Fin 25)
           (fun k => if String.eqb k "bunga_tahunan" then Some (Fin (inject_Z 10)) else None)
           10).
  - lia.
  - reflexivity.
  - reflexivity.
  - reflexivity.
  - intro shown. reflexivity.
Defined.

(** * Beyond the specification: the API key and the conversation *)

(** X9 (resolve_google_api_key, lines 31-45).  A secret that is not empty
    wins over the environment variable and is returned as it is, its
    whitespace included. *)
Theorem resolve_google_api_key_secret_first (value : str) (getenv : option str) :
  value <> [] -> resolve_google_api_key (Ok (Some value)) getenv = value.
Proof. apply resolve_google_api_key_secret. Qed.

Lemma resolve_google_api_key_secret_first_witness :
  resolve_google_api_key (Ok (Some (list_ascii_of_string " k1 ")))
    (Some (list_ascii_of_string "k2"))
  = list_ascii_of_string " k1 ".
Proof.
  apply (resolve_google_api_key_secret_first (list_ascii_of_string " k1 ")
           (Some (list_ascii_of_string "k2"))).
  discriminate.
Defined.

(** X10 (resolve_google_api_key, lines 31-45).  The result is the empty
    string, the value at which the script stops, exactly when there is no
    usable secret and the environment variable is unset or blank. *)
Theorem resolve_google_api_key_empty_iff
    (secrets : result (option str)) (getenv : option str) :
  resolve_google_api_key secrets getenv = []
  <-> no_secret secrets
      /\ (getenv = None
          \/ exists value, getenv = Some value
                           /\ Forall (fun c => isspace c = true) value).
Proof.
  split.
  - intro H.
    assert (NS : no_secret secrets).
    { intros value ->. destruct value as [|c value]; [reflexivity|].
      rewrite resolve_google_api_key_secret in H by discriminate. discriminate H. }
    split; [exact NS|].
    rewrite resolve_google_api_key_env in H by exact NS.
    destruct getenv as [value |]; [|left; reflexivity].
    right. exists value. split; [reflexivity|]. now apply strip_with_nil.
  - intros [NS E]. rewrite resolve_google_api_key_env by exact NS.
    destruct E as [-> | (value & -> & F)]; [reflexivity|]. now apply strip_with_nil.
Qed.

(** X11 (resolve_google_api_key, lines 31-45).  Without a usable secret
    the key is the environment variable stripped: it neither starts nor
    ends with whitespace, so that stripping it again changes nothing. *)
Theorem resolve_google_api_key_env_stripped
    (secrets : result (option str)) (getenv : option str) :
  no_secret secrets ->
  resolve_google_api_key secrets getenv
  = strip (match getenv with Some value => value | None => [] end)
  /\ strip (resolve_google_api_key secrets getenv)
     = resolve_google_api_key secrets getenv.
Proof.
  intro NS. rewrite resolve_google_api_key_env by exact NS.
  split; [reflexivity | apply strip_with_idem].
Qed.

Lemma resolve_google_api_key_env_stripped_witness :
  resolve_google_api_key (Raise ValueError) (Some (list_ascii_of_string "  k2 "))
  = strip (list_ascii_of_string "  k2 ")
  /\ strip (resolve_google_api_key (Raise ValueError)
              (Some (list_ascii_of_string "  k2 ")))
     = resolve_google_api_key (Raise ValueError) (Some (list_ascii_of_string "  k2 ")).
Proof.
  apply (resolve_google_api_key_env_stripped (Raise ValueError)
           (Some (list_ascii_of_string "  k2 "))).
  intros value H. discriminate H.
Defined.

(** X12 (ensure_messages_initialized, lines 270-276).  A session without
    messages gets the system messages of the two texts that are not blank,
    the banker context before the additional prompt; each is stripped and
    not empty. *)
Theorem ensure_messages_initialized_fresh (sys_prompt banker_context : str) :
  ensure_messages_initialized sys_prompt banker_context None
  = Some (initial_messages sys_prompt banker_context)
  /\ Forall (fun m => role m = "system"%string /\ content m <> []
                      /\ strip (content m) = content m)
            (initial_messages sys_prompt banker_context)
  /\ (List.length (initial_messages sys_prompt banker_context) <= 2)%nat.
Proof.
  split; [apply ensure_messages_initialized_None|].
  split; [apply initial_messages_system|].
  unfold initial_messages. rewrite length_map. cbn [filter].
  destruct (truthy (strip banker_context)), (truthy (strip sys_prompt));
    cbn [List.length]; lia.
Qed.

(** X13 (ensure_messages_initialized, lines 270-276).  The messages are
    initialised once: on a session that has them, be they an empty list, the
    call changes nothing, so the texts of a later call never reach the
    conversation. *)
Theorem ensure_messages_initialized_once
    (sys_prompt banker_context sys_prompt' banker_context' : str)
    (messages : option (list message)) :
  ensure_messages_initialized sys_prompt' banker_context'
    (ensure_messages_initialized sys_prompt banker_context messages)
  = ensure_messages_initialized sys_prompt banker_context messages
  /\ ensure_messages_initialized sys_prompt banker_context (Some [])
     = Some [].
Proof.
  split; [|reflexivity].
  destruct messages as [ms |]; [reflexivity|].
  rewrite ensure_messages_initialized_None. reflexivity.
Qed.

(** X14 (chat turn, lines 411-436).  A chat turn keeps the history and
    appends to it at most one turn: nothing exactly when the user gave no
    text; else the user message, followed by the reply of the model unless
    an error is shown, in which case the user message stays, unanswered. *)
Theorem chat_turn_keeps_history (invoke : list lc_message -> result str)
    (user_text : option str) (messages : list message) :
  exists later,
    fst (chat_turn invoke user_text messages) = messages ++ later
    /\ turns later
    /\ (List.length later <= 2)%nat
    /\ (later = [] <-> user_text = None \/ user_text = Some [])
    /\ (snd (chat_turn invoke user_text messages) <> None <-> List.length later = 1%nat).
Proof.
  destruct user_text as [[|c text] |]; cbn [chat_turn].
  - change (truthy []) with false. cbv iota.
    exists []. cbn [fst snd List.length]. rewrite app_nil_r.
    repeat split; auto using turns_nil; try lia; try congruence; try discriminate.
  - change (truthy (c :: text)) with true. cbv iota.
    destruct (invoke _) as [ai_text | e]; cbn [fst snd].
    + exists [{| role := "user"; content := c :: text |};
              {| role := "assistant"; content := ai_text |}].
      rewrite <- app_assoc. cbn [List.length].
      repeat split; try lia; try congruence; try discriminate.
      * apply (turns_answered [] (c :: text) ai_text); [apply turns_nil | discriminate].
      * intros [H | H]; discriminate H.
    + exists [{| role := "user"; content := c :: text |}]. cbn [List.length].
      repeat split; try lia; try congruence; try discriminate.
      * apply (turns_unanswered [] (c :: text)); [apply turns_nil | discriminate].
      * intros [H | H]; discriminate H.
  - exists []. cbn [fst snd List.length]. rewrite app_nil_r.
    repeat split; auto using turns_nil; try lia; try congruence; try discriminate.
Qed.

(** X15 (chat stage, lines 292-436, with resolve_google_api_key and
    ensure_messages_initialized).  However often the script runs, whatever
    the user, the environment and the model do, the messages of the session,
    when there are any, are the system messages made from the prompts of one
    of the runs, followed by chat turns only: no system message is added,
    changed or moved later, and every reply follows a user message. *)
Theorem chat_session_shape (runs : list rerun) :
  match chat_session runs None with
  | None => True
  | Some messages =>
      exists r tail,
        In r runs
        /\ messages = initial_messages (sys_prompt r) (banker_context r) ++ tail
        /\ turns tail
  end.
Proof.
  induction runs as [|r runs IH] using rev_ind; [exact I|].
  unfold chat_session in *. rewrite fold_left_app. cbn [fold_left].
  set (before := fold_left (fun messages r => chat_stage r messages) runs None) in *.
  unfold chat_stage.
  destruct (truthy (resolve_google_api_key (secrets r) (getenv r))).
  - destruct (reset_btn r); [exact I|].
    destruct before as [ms |].
    + destruct IH as (r0 & tail & I0 & -> & T). cbn [ensure_messages_initialized].
      destruct (turns_chat_turn (invoke r) (user_text r)
                  (initial_messages (sys_prompt r0) (banker_context r0) ++ tail))
        as (later & -> & L).
      exists r0, (tail ++ later). split; [apply in_or_app; left; exact I0|].
      split; [now rewrite app_assoc | now apply turns_app].
    + rewrite ensure_messages_initialized_None.
      destruct (turns_chat_turn (invoke r) (user_text r)
                  (initial_messages (sys_prompt r) (banker_context r)))
        as (later & -> & L).
      exists r, later. split; [apply in_or_app; right; left; reflexivity|].
      split; [reflexivity | exact L].
  - destruct before as [ms |]; [|exact I].
    destruct IH as (r0 & tail & I0 & E & T).
    exists r0, tail. split; [apply in_or_app; left; exact I0|]. split; assumption.
Qed.

(** X16 (render loop, lines 399-403).  Of a conversation that is system
    messages followed by chat turns, the history shows the chat turns and
    nothing else, each under the name of its role: the system messages stay
    hidden. *)
Theorem render_history_hides_system (system_messages tail : list message) :
  Forall (fun m => role m = "system"%string) system_messages ->
  turns tail ->
  render_history (system_messages ++ tail)
  = List.map (fun m => (role m, content m)) tail.
Proof.
  intros S T. rewrite render_history_app, render_history_system by exact S.
  apply render_history_chat. now apply turns_roles.
Qed.

Lemma render_history_hides_system_witness :
  render_history
    ([{| role := "system"; content := list_ascii_of_string "Anda adalah" |}]
     ++ ([] ++ [{| role := "user"; content := list_ascii_of_string "Halo" |};
                {| role := "assistant"; content := list_ascii_of_string "Hai" |}]))
  = List.map (fun m => (role m, content m))
      ([] ++ [{| role := "user"; content := list_ascii_of_string "Halo" |};
              {| role := "assistant"; content := list_ascii_of_string "Hai" |}]).
Proof.
  apply (render_history_hides_system
           [{| role := "system"; content := list_ascii_of_string "Anda adalah" |}]
           ([] ++ [{| role := "user"; content := list_ascii_of_string "Halo" |};
                   {| role := "assistant"; content := list_ascii_of_string "Hai" |}])).
  - constructor; [reflexivity | constructor].
  - apply turns_answered; [apply turns_nil | discriminate].
Defined.

(** X17 (chat stage, lines 292-301 and 405-408, with
    resolve_google_api_key).  Without a usable secret and with the
    environment variable unset or blank, a run of the chat stage leaves the
    messages as they are: it neither creates the conversation nor resets it
    nor calls the model. *)
Theorem chat_stage_needs_key (r : rerun) (messages : option (list message)) :
  no_secret (secrets r) ->
  (getenv r = None
   \/ exists value, getenv r = Some value /\ Forall (fun c => isspace c = true) value) ->
  chat_stage r messages = messages.
Proof.
  intros NS E. unfold chat_stage.
  rewrite resolve_google_api_key_env by exact NS.
  assert (K : strip (match getenv r with Some value => value | None => [] end) = []).
  { destruct E as [-> | (value & -> & F)]; [reflexivity | now apply strip_with_nil]. }
  rewrite K. reflexivity.
Qed.

Lemma chat_stage_needs_key_witness :
  chat_stage
    {| secrets := Ok None; getenv := Some (list_ascii_of_string "  ");
       reset_btn := true; sys_prompt := []; banker_context := list_ascii_of_string "Anda";
       user_text := Some (list_ascii_of_string "Halo");
       invoke := fun _ => Ok (list_ascii_of_string "Hai") |}
    None
  = None.
Proof.
  apply (chat_stage_needs_key
           {| secrets := Ok None; getenv := Some (list_ascii_of_string "  ");
              reset_btn := true; sys_prompt := [];
              banker_context := list_ascii_of_string "Anda";
              user_text := Some (list_ascii_of_string "Halo");
              invoke := fun _ => Ok (list_ascii_of_string "Hai") |}
           None).
  - intros value H. discriminate H.
  - right. eexists. split; [reflexivity|]. repeat constructor.
Defined.

(** * Beyond the specification: the display of decimals *)

(** X18 (fmt_decimal_trim, lines 67-78, and format_decimal_with_commas,
    lines 80-93).  A whole float below [2^53] in size: its [str] is the
    digits of the int and [.0], which [fmt_decimal_trim] trims to the
    digits, and [format_decimal_with_commas] displays it as the int with its
    digits in groups of three, without a point. *)
Theorem format_decimal_with_commas_whole_float (z : Z) :
  (Z.abs z < 2 ^ 53)%Z ->
  float_str (Fin (inject_Z z))
  = (if (z <? 0)%Z then ["-"%char] else []) ++ str_of_nonneg (Z.abs z)
    ++ list_ascii_of_string ".0"
  /\ fmt_decimal_trim (Fin (inject_Z z))
     = Ok ((if (z <? 0)%Z then ["-"%char] else []) ++ str_of_nonneg (Z.abs z))
  /\ format_decimal_with_commas (Fin (inject_Z z)) = Ok (format_int_commas z).
Proof.
  intro B. split; [now apply float_str_whole_signed|].
  split; [now apply fmt_decimal_trim_int | now apply format_decimal_with_commas_whole].
Qed.

Lemma format_decimal_with_commas_whole_float_witness :
  float_str (Fin (inject_Z (- 10000)))
  = (if (- 10000 <? 0)%Z then ["-"%char] else []) ++ str_of_nonneg (Z.abs (- 10000))
    ++ list_ascii_of_string ".0"
  /\ fmt_decimal_trim (Fin (inject_Z (- 10000)))
     = Ok ((if (- 10000 <? 0)%Z then ["-"%char] else [])
           ++ str_of_nonneg (Z.abs (- 10000)))
  /\ format_decimal_with_commas (Fin (inject_Z (- 10000)))
     = Ok (format_int_commas (- 10000)).
Proof.
  apply (format_decimal_with_commas_whole_float (- 10000)). reflexivity.
Defined.

(** X19 (format_decimal_with_commas, lines 80-93).  A float whose [str] is
    a sign, the digits of an int [n], a point and a fraction that does not
    end in a zero is displayed with the digits of [n] in groups of three and
    the fraction as it is. *)
Theorem format_decimal_with_commas_groups_integer_part
    (x : pyfloat) (negative : bool) (n : Z) (fp : str) (a : ascii) :
  (0 <= n < 2 ^ 53)%Z -> isdecimal a = true -> a <> "0"%char ->
  float_str x
  = (if negative then ["-"%char] else []) ++ str_of_nonneg n ++ "."%char :: fp ++ [a] ->
  format_decimal_with_commas x
  = Ok (format_int_commas (if negative then - n else n) ++ "."%char :: fp ++ [a]).
Proof. apply format_decimal_with_commas_point. Qed.

Lemma format_decimal_with_commas_groups_integer_part_witness :
  format_decimal_with_commas (Fin (61728 # 5))
  = Ok (format_int_commas (if false then - 12345 else 12345) ++ "."%char :: [] ++ ["6"%char]).
Proof.
  apply (format_decimal_with_commas_groups_integer_part (Fin (61728 # 5)) false 12345 []
           "6"%char).
  - vm_compute. split; [discriminate | reflexivity].
  - reflexivity.
  - discriminate.
  - vm_compute. reflexivity.
Defined.

(** X20 (format_decimal_with_commas, lines 80-93).  A negative float
    above [-1] whose [str] is [-0.] and a fraction loses its sign: its
    integer part [-0] is read as the int [0], and the float is displayed as
    its opposite is. *)
Theorem format_decimal_with_commas_loses_sign (q : Q) (fp : str) (a : ascii) :
  q < 0 -> isdecimal a = true -> a <> "0"%char ->
  float_str (Fin q) = list_ascii_of_string "-0." ++ fp ++ [a] ->
  format_decimal_with_commas (Fin q) = Ok (list_ascii_of_string "0." ++ fp ++ [a])
  /\ format_decimal_with_commas (Fin (- q)) = format_decimal_with_commas (Fin q).
Proof.
  intros N D Hz E.
  assert (P : format_decimal_with_commas (Fin q)
              = Ok (list_ascii_of_string "0." ++ fp ++ [a])).
  { apply (format_decimal_with_commas_point (Fin q) true 0 fp a);
      [vm_compute; split; [discriminate | reflexivity] | exact D | exact Hz | exact E]. }
  split; [exact P|]. rewrite P.
  apply (format_decimal_with_commas_point (Fin (- q)) false 0 fp a);
    [vm_compute; split; [discriminate | reflexivity] | exact D | exact Hz |].
  rewrite float_str_negative in E by exact N.
  apply (f_equal (@tl ascii)) in E. exact E.
Qed.

Lemma format_decimal_with_commas_loses_sign_witness :
  format_decimal_with_commas (Fin (- 1 # 2))
  = Ok (list_ascii_of_string "0." ++ [] ++ ["5"%char])
  /\ format_decimal_with_commas (Fin (- (- 1 # 2)))
     = format_decimal_with_commas (Fin (- 1 # 2)).
Proof.
  apply (format_decimal_with_commas_loses_sign (- 1 # 2) [] "5"%char).
  - reflexivity.
  - reflexivity.
  - discriminate.
  - vm_compute. reflexivity.
Defined.

(** X21 (fmt_decimal_trim, lines 67-78).  When [str] of the float is in
    exponent notation with a point in its mantissa, the zeros that end the
    exponent are stripped with it: [1.5e-10] is trimmed to [1.5e-1]. *)
Theorem fmt_decimal_trim_strips_exponent
    (x : pyfloat) (mantissa : str) (sign : ascii) (ex : str) (a : ascii) (k : nat) :
  In "."%char mantissa -> a <> "0"%char -> a <> "."%char ->
  float_str x = mantissa ++ "e"%char :: sign :: ex ++ [a] ++ repeat "0"%char k ->
  fmt_decimal_trim x = Ok (mantissa ++ "e"%char :: sign :: ex ++ [a]).
Proof.
  intros P Hz D E. rewrite fmt_decimal_trim_unfold, E.
  assert (C : contains "." (mantissa ++ "e"%char :: sign :: ex ++ [a] ++ repeat "0"%char k)
              = true).
  { apply contains_true. apply in_or_app. left. exact P. }
  rewrite C. f_equal.
  replace (mantissa ++ "e"%char :: sign :: ex ++ [a] ++ repeat "0"%char k)
    with (((mantissa ++ "e"%char :: sign :: ex) ++ [a]) ++ repeat "0"%char k)
    by (rewrite <- !app_assoc; reflexivity).
  rewrite rstrip_char_repeat, !rstrip_char_snoc_other by assumption.
  rewrite <- app_assoc. reflexivity.
Qed.

Lemma fmt_decimal_trim_strips_exponent_witness :
  fmt_decimal_trim (Fin (3 # 20000000000))
  = Ok (list_ascii_of_string "1.5" ++ "e"%char :: "-"%char :: [] ++ ["1"%char]).
Proof.
  apply (fmt_decimal_trim_strips_exponent (Fin (3 # 20000000000))
           (list_ascii_of_string "1.5") "-"%char [] "1"%char 1).
  - right. left. reflexivity.
  - discriminate.
  - discriminate.
  - vm_compute. reflexivity.
Defined.

(** X22 (format_decimal_with_commas, lines 80-93, then parse_decimal,
    lines 119-140).  The display of a whole float from [1000] to [999999]
    does not read back: it has one comma and no point, which
    [parse_decimal] takes for a decimal comma, and returns the float of
    [n / 1000]. *)
Theorem parse_decimal_misreads_thousands (n : Z) :
  (1000 <= n < 1000000)%Z ->
  exists s, format_decimal_with_commas (Fin (inject_Z n)) = Ok s
            /\ parse_decimal (string_of_list_ascii s)
               = Ok (binary64 (inject_Z n * 10 ^ (0 - 3))).
Proof.
  intros B. exists (format_int_commas n).
  assert (P53 : (1000000 < 2 ^ 53)%Z) by reflexivity.
  split; [apply format_decimal_with_commas_whole; lia|].
  unfold format_int_commas.
  assert (S : (n <? 0)%Z = false) by (apply Z.ltb_ge; lia). rewrite S.
  destruct (str_of_nonneg_spec n) as (A & _ & V & _); [lia|].
  destruct (thousands_one_comma (str_of_nonneg n) (str_of_nonneg_thousands n B))
    as (ip & fp & D & N & L & ->).
  rewrite D in A, V. apply Forall_app in A. destruct A as [Ai Af].
  rewrite parse_decimal_comma; [|assumption|assumption|].
  - unfold decimal_value. rewrite V, L. reflexivity.
  - intro H. apply app_eq_nil in H. destruct H as [H _]. contradiction.
Qed.

Lemma parse_decimal_misreads_thousands_witness :
  exists s, format_decimal_with_commas (Fin (inject_Z 1000)) = Ok s
            /\ parse_decimal (string_of_list_ascii s)
               = Ok (binary64 (inject_Z 1000 * 10 ^ (0 - 3))).
Proof. apply (parse_decimal_misreads_thousands 1000). lia. Defined.

(** X23 (fmt_decimal_trim, lines 67-78, and format_decimal_with_commas,
    lines 80-93).  A float whose [str] has no point, an infinity, a NaN or a
    float in exponent notation, is left as it is by the trimming and
    displayed as [str] gives it: [int()] rejects the text and the [except]
    branch answers. *)
Theorem format_decimal_with_commas_no_point (x : pyfloat) :
  contains "." (float_str x) = false ->
  fmt_decimal_trim x = Ok (float_str x)
  /\ format_decimal_with_commas x = Ok (float_str x)
  /\ (exists e, py_int (float_str x) = Raise e)
  /\ match x with Fin _ => In "e"%char (float_str x) | _ => True end.
Proof.
  intro C. destruct (float_str_no_point x C) as [[e P] S].
  assert (T : fmt_decimal_trim x = Ok (float_str x))
    by (rewrite fmt_decimal_trim_unfold, C; reflexivity).
  split; [exact T|]. split; [|split; [eauto | exact S]].
  unfold format_decimal_with_commas. rewrite T. cbn [bind]. rewrite C, P. reflexivity.
Qed.

Lemma format_decimal_with_commas_no_point_witness :
  fmt_decimal_trim (Fin (inject_Z (10 ^ 16))) = Ok (float_str (Fin (inject_Z (10 ^ 16))))
  /\ format_decimal_with_commas (Fin (inject_Z (10 ^ 16)))
     = Ok (float_str (Fin (inject_Z (10 ^ 16))))
  /\ (exists e, py_int (float_str (Fin (inject_Z (10 ^ 16)))) = Raise e)
  /\ match Fin (inject_Z (10 ^ 16)) with
     | Fin _ => In "e"%char (float_str (Fin (inject_Z (10 ^ 16))))
     | _ => True
     end.
Proof.
  apply (format_decimal_with_commas_no_point (Fin (inject_Z (10 ^ 16)))).
  vm_compute. reflexivity.
Defined.

(** * Beyond the specification: the name and the compliance warning *)

(** X25 (snapshot, line 322).  The name given to the model is never blank:
    it is the stored name without the whitespace around it, or [Nasabah]
    when the name is missing or blank. *)
Theorem nama_never_blank (stored : option str) :
  nama stored <> []
  /\ strip (nama stored) = nama stored
  /\ ((stored = None \/ exists value, stored = Some value
                                      /\ Forall (fun c => isspace c = true) value)
      -> nama stored = list_ascii_of_string "Nasabah").
Proof.
  unfold nama. set (value := match stored with Some v => v | None => [] end).
  destruct (truthy (strip value)) eqn:T.
  - split; [now apply truthy_true|]. split; [apply strip_with_idem|].
    intro B. exfalso. apply truthy_true in T. apply T. apply strip_with_nil.
    subst value. destruct B as [-> | (v & -> & F)]; [constructor | exact F].
  - split; [discriminate|]. split; [reflexivity|]. reflexivity.
Qed.

